(** * ServerRequest: the HTTPS request fail-over of [server_request.cpp]

    A shallow embedding of [ServerRequest::MakeRequest] and
    [ServerRequest::GetTempTransports].  The C++ code is sequential and
    effectful: it polls a stop signal, issues HTTPS requests, asks the
    transport registry for fresh transport objects, connects transports
    through a scoped [TransportConnection] and deletes heap objects.  The
    embedding threads an explicit state through a small state-and-exception
    monad and records every effect in a chronological log, so that the
    properties of the orchestration can be stated on the log.

    Conventions.  [HTTPSRequest], [TransportRegistry], the stop signal and
    [TransportConnection::Connect] are collaborators defined outside
    [server_request.cpp]; they are taken as functions of the history of effects, so that a
    request may fail first and succeed later and the stop signal may come
    up in the middle of a call.  [assert] is modelled with assertions
    enabled: a failed assertion ends the program.  A request that throws
    leaves the caller's [response] as it was.  The results [true] and
    [false] of [MakeRequest] are the design's Success and Failed; its
    Cancelled is the exception thrown by the stop check. *)

From Stdlib Require Import ZArith List String Bool Lia Permutation.
Import ListNotations.

Local Open Scope string_scope.
Local Open Scope Z_scope.
Local Open Scope list_scope.

(** ** Data model *)

(** [SessionInfo]: the getters [MakeRequest] reads. *)
Record SessionInfo : Type := {
  GetServerAddress : string;
  GetWebPort : Z;
  GetWebServerCertificate : string
}.

(** [ITransport]: the capability set used by this file.  [transportId]
    stands for the identity (address) of the object. *)
Record ITransport : Type := {
  transportId : nat;
  GetTransportProtocolName : string;
  IsConnected : bool;
  IsServerRequestTunnelled : bool;
  IsHandshakeRequired : SessionInfo -> bool
}.

(** C++ exceptions that can travel through [MakeRequest].  [StopException]
    is what [CheckSignal(reasons, true)] throws when signalled;
    [TryNextServer] is [TransportConnection::TryNextServer]. *)
Inductive Exception : Type :=
| StopException
| TryNextServer
| OtherException (code : nat).

(** The arguments of one [HTTPSRequest::MakeRequest] call.  [path] is the
    [const TCHAR*] handed through ([None] is the null pointer). *)
Record HTTPSCall : Type := {
  address : string;
  port : Z;
  certificate : string;
  path : option string;
  useLocalProxy : bool;
  headers : option string;
  data : option string;
  dataLength : Z
}.

(** What one [HTTPSRequest::MakeRequest] call does: it returns a [bool] and
    leaves a value in the [response] out-parameter, or it throws. *)
Inductive HTTPSResult : Type :=
| HTTPSReturn (ok : bool) (resp : string)
| HTTPSThrow (e : Exception).

(** What [TransportConnection::Connect] does: it returns (the transport is
    up) or throws (the comment in the source: "Throws on failure"). *)
Inductive ConnectResult : Type :=
| ConnectOk
| ConnectThrow (e : Exception).

(** The two [my_print] diagnostics of [MakeRequest]. *)
Inductive Message : Type :=
| HttpsFailed (p : Z)
| TransportFailed (name : string).

(** Observable effects, in the order the code performs them. *)
Inductive Event : Type :=
| EvCheckSignal (signalled : bool)
| EvHTTPSRequest (call : HTTPSCall) (result : HTTPSResult)
| EvPrint (m : Message)
| EvNewAll (created : list ITransport)
| EvDelete (t : ITransport)
| EvConnect (t : ITransport) (result : ConnectResult)
| EvDisconnect (t : ITransport).

(** The collaborators that are not part of [server_request.cpp], as
    deterministic functions of the history of effects so far. *)
Record World : Type := {
  stopSignalled : list Event -> bool;
  httpsRequest : list Event -> HTTPSCall -> HTTPSResult;
  newAll : list ITransport;
  connectResult : list Event -> ITransport -> SessionInfo -> ConnectResult
}.

(** Program state: the effect log, the caller's [response] string and the
    transport held by the loop-local [TransportConnection] object. *)
Record State : Type := {
  log : list Event;
  response : string;
  connection : option ITransport
}.

Definition initial (response0 : string) : State :=
  {| log := []; response := response0; connection := None |}.

(** ** A state-and-exception monad for the C++ control flow *)

Inductive Result (A : Type) : Type :=
| Normal (a : A)
| Thrown (e : Exception)
| AssertionFailed.

Arguments Normal {A} a.
Arguments Thrown {A} e.
Arguments AssertionFailed {A}.

Definition Cpp (A : Type) : Type := State -> Result A * State.

Definition ret {A : Type} (a : A) : Cpp A := fun s => (Normal a, s).

Definition bind {A B : Type} (m : Cpp A) (k : A -> Cpp B) : Cpp B :=
  fun s =>
    match m s with
    | (Normal a, s') => k a s'
    | (Thrown e, s') => (Thrown e, s')
    | (AssertionFailed, s') => (AssertionFailed, s')
    end.

Declare Scope cpp_scope.
Delimit Scope cpp_scope with cpp.
Notation "x <- m ;; k" := (bind m (fun x => k))
  (at level 100, m at next level, right associativity) : cpp_scope.
Notation "m ;; k" := (bind m (fun _ => k))
  (at level 100, right associativity) : cpp_scope.
Local Open Scope cpp_scope.

(** [assert(c)]: a failed assertion aborts the program on the spot. *)
Definition assert (c : bool) : Cpp unit :=
  fun s => if c then (Normal tt, s) else (AssertionFailed, s).

Definition record (e : Event) (s : State) : State :=
  {| log := log s ++ [e]; response := response s; connection := connection s |}.

Definition emit (e : Event) : Cpp unit := fun s => (Normal tt, record e s).

Definition set_response (r : string) (s : State) : State :=
  {| log := log s; response := r; connection := connection s |}.

(** [response.clear()]. *)
Definition response_clear : Cpp unit :=
  fun s => (Normal tt, set_response "" s).

Definition set_connection (c : option ITransport) (s : State) : State :=
  {| log := log s; response := response s; connection := c |}.

(** [try { body } catch (TransportConnection::TryNextServer&) { handler }]. *)
Definition try_catch_TryNextServer {A : Type} (body handler : Cpp A) : Cpp A :=
  fun s =>
    match body s with
    | (Thrown TryNextServer, s') => handler s'
    | other => other
    end.

(** A block whose local object has destructor [dtor]: the destructor runs
    when control leaves the block, normally or by an exception. *)
Definition scoped {A : Type} (body : Cpp A) (dtor : State -> State) : Cpp A :=
  fun s =>
    match body s with
    | (AssertionFailed, s') => (AssertionFailed, s')
    | (r, s') => (r, dtor s')
    end.

(** ** The operations of [server_request.cpp] *)

Section ServerRequest.

Variable W : World.

(** [stopInfo.stopSignal->CheckSignal(stopInfo.stopReasons, true)]:
    "Throws if signaled". *)
Definition CheckSignal : Cpp unit :=
  fun s =>
    let signalled := stopSignalled W (log s) in
    let s' := record (EvCheckSignal signalled) s in
    if signalled then (Thrown StopException, s') else (Normal tt, s').

(** One [HTTPSRequest::MakeRequest] call. *)
Definition HTTPSRequest_MakeRequest (c : HTTPSCall) : Cpp bool :=
  fun s =>
    let r := httpsRequest W (log s) c in
    let s' := record (EvHTTPSRequest c r) s in
    match r with
    | HTTPSReturn ok resp => (Normal ok, set_response resp s')
    | HTTPSThrow e => (Thrown e, s')
    end.

(** Modelled from the spec: [TransportConnection] (transport_connection.h is
    not among the sources).  [Connect] either brings the given transport up,
    after which the connection object holds it, or throws and holds
    nothing.  The destructor disconnects the transport the object holds
    ("when we leave this scope, the TransportConnection will clean up the
    transport connection"). *)
Definition TransportConnection_construct : Cpp unit :=
  fun s => (Normal tt, set_connection None s).

Definition TransportConnection_Connect
    (t : ITransport) (sessionInfo : SessionInfo) : Cpp unit :=
  fun s =>
    let r := connectResult W (log s) t sessionInfo in
    let s' := record (EvConnect t r) s in
    match r with
    | ConnectOk => (Normal tt, set_connection (Some t) s')
    | ConnectThrow e => (Thrown e, s')
    end.

Definition TransportConnection_destroy (s : State) : State :=
  match connection s with
  | Some t => set_connection None (record (EvDisconnect t) s)
  | None => s
  end.

(** The body of the [for] loop of [GetTempTransports]; [o_tempTransports]
    grows by [push_back]. *)
Fixpoint GetTempTransports_loop (sessionInfo : SessionInfo)
    (all_transports o_tempTransports : list ITransport)
    : Cpp (list ITransport) :=
  match all_transports with
  | [] => ret o_tempTransports
  | it :: rest =>
      if negb (IsHandshakeRequired it sessionInfo)
      then GetTempTransports_loop sessionInfo rest (o_tempTransports ++ [it])
      else emit (EvDelete it) ;;
           GetTempTransports_loop sessionInfo rest o_tempTransports
  end.

(** [ServerRequest::GetTempTransports]: the out-parameter is cleared and
    returned filled. *)
Definition GetTempTransports (sessionInfo : SessionInfo)
    : Cpp (list ITransport) :=
  let all_transports := newAll W in
  emit (EvNewAll all_transports) ;;
  GetTempTransports_loop sessionInfo all_transports [].

Section Request.

Variable sessionInfo : SessionInfo.
Variable requestPath : option string.
Variable additionalHeaders : option string.
Variable additionalData : option string.
Variable additionalDataLength : Z.

(** The argument list every HTTPS request of [MakeRequest] shares, up to
    the port and the local-proxy flag. *)
Definition request_to (p : Z) (proxy : bool) : HTTPSCall :=
  {| address := GetServerAddress sessionInfo;
     port := p;
     certificate := GetWebServerCertificate sessionInfo;
     path := requestPath;
     useLocalProxy := proxy;
     headers := additionalHeaders;
     data := additionalData;
     dataLength := additionalDataLength |}.

(** The loop over [ports]: [true] stands for the [return true] inside the
    loop, [false] for leaving the loop at [ports.end()]. *)
Fixpoint direct_loop (ports : list Z) : Cpp bool :=
  match ports with
  | [] => ret false
  | port_iter :: rest =>
      ok <- HTTPSRequest_MakeRequest (request_to port_iter false) ;;
      if ok then ret true
      else emit (EvPrint (HttpsFailed port_iter)) ;; direct_loop rest
  end.

(** One iteration of the loop over [tempTransports]: [true] stands for
    [success = true; break]. *)
Definition try_transport (t : ITransport) : Cpp bool :=
  TransportConnection_construct ;;
  scoped
    (try_catch_TryNextServer
       (TransportConnection_Connect t sessionInfo ;;
        ok <- HTTPSRequest_MakeRequest
                (request_to (GetWebPort sessionInfo)
                            (IsServerRequestTunnelled t)) ;;
        if ok then ret true
        else emit (EvPrint (TransportFailed (GetTransportProtocolName t))) ;;
             ret false)
       (ret false))
    TransportConnection_destroy.

Fixpoint transport_loop (tempTransports : list ITransport) : Cpp bool :=
  match tempTransports with
  | [] => ret false
  | t :: rest =>
      success <- try_transport t ;;
      if success then ret true else transport_loop rest
  end.

(** The destructor of [vector<auto_ptr<ITransport>>]: every element is
    deleted. *)
Definition delete_all (ts : list ITransport) (s : State) : State :=
  fold_left (fun s' t => record (EvDelete t) s') ts s.

(** The part of [MakeRequest] after the direct attempts: the eligible
    transports are fetched into [tempTransports], tried in turn, and the
    vector is destroyed when the function is left. *)
Definition transport_failover : Cpp bool :=
  tempTransports <- GetTempTransports sessionInfo ;;
  scoped (transport_loop tempTransports) (delete_all tempTransports).

Definition transportConnected (currentTransport : option ITransport) : bool :=
  match currentTransport with
  | Some t => IsConnected t
  | None => false
  end.

(** [ServerRequest::MakeRequest]. *)
Definition MakeRequest (adhocIfNeeded : bool)
    (currentTransport : option ITransport) : Cpp bool :=
  CheckSignal ;;
  assert (match requestPath with Some _ => true | None => false end) ;;
  response_clear ;;
  if transportConnected currentTransport then
    match currentTransport with
    | Some t =>
        HTTPSRequest_MakeRequest
          (request_to (GetWebPort sessionInfo) (IsServerRequestTunnelled t))
    | None => ret false (* not reached: [transportConnected] excludes it *)
    end
  else if negb adhocIfNeeded then ret false
  else
    returned <- direct_loop [GetWebPort sessionInfo; 443] ;;
    if returned then ret true else transport_failover.

End Request.
End ServerRequest.

(** ** Reading the effect log *)

(** The HTTPS requests of a log, with what each one did. *)
Fixpoint https_events (lg : list Event) : list (HTTPSCall * HTTPSResult) :=
  match lg with
  | [] => []
  | EvHTTPSRequest c r :: lg' => (c, r) :: https_events lg'
  | _ :: lg' => https_events lg'
  end.

(** The [Connect] calls of a log. *)
Fixpoint connect_events (lg : list Event) : list (ITransport * ConnectResult) :=
  match lg with
  | [] => []
  | EvConnect t r :: lg' => (t, r) :: connect_events lg'
  | _ :: lg' => connect_events lg'
  end.

(** How often the registry was asked for transports. *)
Fixpoint enumerations (lg : list Event) : nat :=
  match lg with
  | [] => 0
  | EvNewAll _ :: lg' => S (enumerations lg')
  | _ :: lg' => enumerations lg'
  end.

(** How often the stop signal was polled. *)
Fixpoint polls (lg : list Event) : nat :=
  match lg with
  | [] => 0
  | EvCheckSignal _ :: lg' => S (polls lg')
  | _ :: lg' => polls lg'
  end.

(** The HTTPS requests made before the registry is asked for transports:
    when no transport is connected these are the direct attempts. *)
Fixpoint direct_attempts (lg : list Event) : list (HTTPSCall * HTTPSResult) :=
  match lg with
  | [] => []
  | EvNewAll _ :: _ => []
  | EvHTTPSRequest c r :: lg' => (c, r) :: direct_attempts lg'
  | _ :: lg' => direct_attempts lg'
  end.

Definition direct_ports (lg : list Event) : list Z :=
  map (fun cr => port (fst cr)) (direct_attempts lg).

(** What a caller of [HTTPSRequest::MakeRequest] sees. *)
Definition https_outcome (r : HTTPSResult) : Result bool :=
  match r with
  | HTTPSReturn ok _ => Normal ok
  | HTTPSThrow e => Thrown e
  end.

(** The transport an event is about, if any. *)
Definition event_transport (e : Event) : option ITransport :=
  match e with
  | EvDelete t | EvConnect t _ | EvDisconnect t => Some t
  | _ => None
  end.

(** The transports a selection keeps and the ones it disposes of. *)
Definition eligible (sessionInfo : SessionInfo) (t : ITransport) : bool :=
  negb (IsHandshakeRequired t sessionInfo).

Definition ineligible (sessionInfo : SessionInfo) (t : ITransport) : bool :=
  IsHandshakeRequired t sessionInfo.

(** Replaying a log to follow the one transport the orchestrator may hold
    connected.  [None] as a result is a violation: a connect while a
    transport is held, a disconnect of a transport that is not the held
    one, or the deletion of the held transport. *)
Definition holder_step (held : option ITransport) (e : Event)
    : option (option ITransport) :=
  match e, held with
  | EvConnect t ConnectOk, None => Some (Some t)
  | EvConnect _ (ConnectThrow _), None => Some None
  | EvConnect _ _, Some _ => None
  | EvDisconnect t, Some u =>
      if Nat.eqb (transportId t) (transportId u) then Some None else None
  | EvDisconnect _, None => None
  | EvDelete t, Some u =>
      if Nat.eqb (transportId t) (transportId u) then None else Some held
  | _, _ => Some held
  end.

Fixpoint holder (held : option ITransport) (lg : list Event)
    : option (option ITransport) :=
  match lg with
  | [] => Some held
  | e :: lg' =>
      match holder_step held e with
      | Some held' => holder held' lg'
      | None => None
      end
  end.

(** The events one pass over the candidates [ts] may leave. *)
Definition loop_event (ts : list ITransport) (e : Event) : Prop :=
  match e with
  | EvConnect t _ | EvDisconnect t => In t ts
  | EvHTTPSRequest _ _ | EvPrint _ => True
  | _ => False
  end.

(** The events of the direct attempts. *)
Definition request_event (e : Event) : Prop :=
  match e with
  | EvHTTPSRequest _ _ | EvPrint _ => True
  | _ => False
  end.

Definition connected_ok (tr : ITransport * ConnectResult) : bool :=
  match snd tr with
  | ConnectOk => true
  | ConnectThrow _ => false
  end.

(** Whether some HTTPS request of a log returned [true]. *)
Definition request_succeeded (cr : HTTPSCall * HTTPSResult) : bool :=
  match snd cr with
  | HTTPSReturn true _ => true
  | _ => false
  end.

Definition succeeded (lg : list Event) : bool :=
  existsb request_succeeded (https_events lg).

(** What the [catch] clause of the loop makes of an exception. *)
Definition caught (e : Exception) : Result bool :=
  match e with
  | TryNextServer => Normal false
  | _ => Thrown e
  end.

(** What the loop over [ports] adds to the log: requests and diagnostics
    only, the requests going to a prefix of [ports] in order, none of them
    through the local proxy. *)
Record DirectDelta (ports : list Z) (d : list Event) : Prop := {
  direct_events : Forall request_event d;
  direct_order :
    exists k, map (fun cr => port (fst cr)) (https_events d) = firstn k ports;
  direct_no_proxy :
    Forall (fun cr => useLocalProxy (fst cr) = false) (https_events d)
}.

(** The transports a log deletes, in the order of the deletions. *)
Fixpoint deleted (lg : list Event) : list ITransport :=
  match lg with
  | [] => []
  | EvDelete t :: lg' => t :: deleted lg'
  | _ :: lg' => deleted lg'
  end.

(** How a pass over the candidates ends, read against what it added to the
    log: a pass that ends with [true] ends on the one request that returned
    [true], whose response is the one left to the caller; a pass never ends
    with [TryNextServer]; an exception it ends with was thrown by one of
    its requests or connects. *)
Record LoopOutcome (out : Result bool) (resp' : string) (d : list Event)
    : Prop := {
  outcome_success :
    out = Normal true ->
    exists pre c r,
      https_events d = pre ++ [(c, HTTPSReturn true r)] /\
      existsb request_succeeded pre = false /\
      resp' = r;
  outcome_not_caught : out <> Thrown TryNextServer;
  outcome_thrown :
    forall e, out = Thrown e ->
      (exists c, In (EvHTTPSRequest c (HTTPSThrow e)) d) \/
      (exists t, In (EvConnect t (ConnectThrow e)) d)
}.

(** ** Concrete calls *)

Definition session8080 : SessionInfo :=
  {| GetServerAddress := "192.0.2.10"; GetWebPort := 8080;
     GetWebServerCertificate := "MIIDcert" |}.

Definition session443 : SessionInfo :=
  {| GetServerAddress := "192.0.2.10"; GetWebPort := 443;
     GetWebServerCertificate := "MIIDcert" |}.

(** A transport that needs a handshake first, and two that do not. *)
Definition vpn : ITransport :=
  {| transportId := 1; GetTransportProtocolName := "VPN";
     IsConnected := false; IsServerRequestTunnelled := true;
     IsHandshakeRequired := fun _ => true |}.

Definition ssh : ITransport :=
  {| transportId := 2; GetTransportProtocolName := "SSH";
     IsConnected := false; IsServerRequestTunnelled := true;
     IsHandshakeRequired := fun _ => false |}.

Definition ossh : ITransport :=
  {| transportId := 3; GetTransportProtocolName := "OSSH";
     IsConnected := false; IsServerRequestTunnelled := true;
     IsHandshakeRequired := fun _ => false |}.

(** The caller's transport, up and down. *)
Definition tunnel_up : ITransport :=
  {| transportId := 0; GetTransportProtocolName := "SSH";
     IsConnected := true; IsServerRequestTunnelled := true;
     IsHandshakeRequired := fun _ => false |}.

Definition tunnel_down : ITransport :=
  {| transportId := 0; GetTransportProtocolName := "SSH";
     IsConnected := false; IsServerRequestTunnelled := true;
     IsHandshakeRequired := fun _ => false |}.

(** Every request succeeds. *)
Definition reachable : World :=
  {| stopSignalled := fun _ => false;
     httpsRequest := fun _ _ => HTTPSReturn true "OK";
     newAll := [vpn; ssh; ossh];
     connectResult := fun _ _ _ => ConnectOk |}.

(** Every request returns [false] and no transport comes up. *)
Definition unreachable : World :=
  {| stopSignalled := fun _ => false;
     httpsRequest := fun _ _ => HTTPSReturn false "";
     newAll := [vpn; ssh; ossh];
     connectResult := fun _ _ _ => ConnectThrow TryNextServer |}.

(** Only port 443 answers. *)
Definition only443 : World :=
  {| stopSignalled := fun _ => false;
     httpsRequest := fun _ c =>
       if Z.eqb (port c) 443 then HTTPSReturn true "R"
       else HTTPSReturn false "";
     newAll := [vpn; ssh; ossh];
     connectResult := fun _ _ _ => ConnectOk |}.

(** The direct attempts fail; through a transport, the second request
    succeeds. *)
Definition tunnelled_only : World :=
  {| stopSignalled := fun _ => false;
     httpsRequest := fun lg c =>
       if useLocalProxy c && Nat.leb 9 (List.length lg)
       then HTTPSReturn true "X" else HTTPSReturn false "";
     newAll := [vpn; ssh; ossh];
     connectResult := fun _ _ _ => ConnectOk |}.

(** The stop signal is down when the call starts and up from the end of
    the first request on; requests return [false], transports come up. *)
Definition stopped_after_first_request : World :=
  {| stopSignalled := fun lg => Nat.leb 2 (List.length lg);
     httpsRequest := fun _ _ => HTTPSReturn false "";
     newAll := [vpn; ssh; ossh];
     connectResult := fun _ _ _ => ConnectOk |}.

(** The direct attempts fail and the request through a transport notices
    a stop signal and throws. *)
Definition stop_seen_by_tunnelled_request : World :=
  {| stopSignalled := fun lg => Nat.leb 6 (List.length lg);
     httpsRequest := fun _ c =>
       if useLocalProxy c then HTTPSThrow StopException
       else HTTPSReturn false "";
     newAll := [vpn; ssh; ossh];
     connectResult := fun _ _ _ => ConnectOk |}.

(** A registry whose only transport needs a handshake; no request
    succeeds. *)
Definition handshake_only : World :=
  {| stopSignalled := fun _ => false;
     httpsRequest := fun _ _ => HTTPSReturn false "";
     newAll := [vpn];
     connectResult := fun _ _ _ => ConnectOk |}.

(** The stop signal is up from the start. *)
Definition stopped : World :=
  {| stopSignalled := fun _ => true;
     httpsRequest := fun _ _ => HTTPSReturn true "OK";
     newAll := [vpn; ssh; ossh];
     connectResult := fun _ _ _ => ConnectOk |}.

(** The port list as the design words it: the web port, then 443, a port
    equal to one already tried being skipped. *)
Definition spec_direct_ports (p : Z) : list Z :=
  if Z.eqb p 443 then [p] else [p; 443].

(** ** Properties of [MakeRequest] *)

Section Properties.

Variable W : World.
Variable sessionInfo : SessionInfo.
Variable requestPath : option string.
Variable additionalHeaders : option string.
Variable additionalData : option string.
Variable additionalDataLength : Z.

Local Abbreviation request p proxy :=
  (request_to sessionInfo requestPath additionalHeaders additionalData
     additionalDataLength p proxy).

Local Abbreviation via t :=
  (request (GetWebPort sessionInfo) (IsServerRequestTunnelled t)).

Local Abbreviation loop ts :=
  (transport_loop W sessionInfo requestPath additionalHeaders additionalData
     additionalDataLength ts).

Local Abbreviation attempt t :=
  (try_transport W sessionInfo requestPath additionalHeaders additionalData
     additionalDataLength t).

Local Abbreviation failover :=
  (transport_failover W sessionInfo requestPath additionalHeaders
     additionalData additionalDataLength).

Local Abbreviation direct ports :=
  (direct_loop W sessionInfo requestPath additionalHeaders additionalData
     additionalDataLength ports).

Local Abbreviation run adhocIfNeeded currentTransport response0 :=
  (MakeRequest W sessionInfo requestPath additionalHeaders additionalData
     additionalDataLength adhocIfNeeded currentTransport (initial response0)).

(** The loop as the design describes it, one rule per case.  A run goes
    from a log and a [response] value to a result, a log and a [response]
    value.  The first four rules are the cases of the design; the last three
    say what C++ does with the exceptions the design does not mention. *)
Inductive CandidateLoop :
  list ITransport -> list Event -> string ->
  Result bool -> list Event -> string -> Prop :=
| CL_exhausted : forall lg resp,
    CandidateLoop [] lg resp (Normal false) lg resp
| CL_acquisition_failed : forall t rest lg resp out lg' resp',
    connectResult W lg t sessionInfo = ConnectThrow TryNextServer ->
    CandidateLoop rest (lg ++ [EvConnect t (ConnectThrow TryNextServer)])
      resp out lg' resp' ->
    CandidateLoop (t :: rest) lg resp out lg' resp'
| CL_success : forall t rest lg resp resp1,
    connectResult W lg t sessionInfo = ConnectOk ->
    httpsRequest W (lg ++ [EvConnect t ConnectOk]) (via t)
      = HTTPSReturn true resp1 ->
    CandidateLoop (t :: rest) lg resp (Normal true)
      (lg ++ [EvConnect t ConnectOk;
              EvHTTPSRequest (via t) (HTTPSReturn true resp1);
              EvDisconnect t])
      resp1
| CL_request_failed : forall t rest lg resp resp1 out lg' resp',
    connectResult W lg t sessionInfo = ConnectOk ->
    httpsRequest W (lg ++ [EvConnect t ConnectOk]) (via t)
      = HTTPSReturn false resp1 ->
    CandidateLoop rest
      (lg ++ [EvConnect t ConnectOk;
              EvHTTPSRequest (via t) (HTTPSReturn false resp1);
              EvPrint (TransportFailed (GetTransportProtocolName t));
              EvDisconnect t])
      resp1 out lg' resp' ->
    CandidateLoop (t :: rest) lg resp out lg' resp'
| CL_request_try_next : forall t rest lg resp out lg' resp',
    connectResult W lg t sessionInfo = ConnectOk ->
    httpsRequest W (lg ++ [EvConnect t ConnectOk]) (via t)
      = HTTPSThrow TryNextServer ->
    CandidateLoop rest
      (lg ++ [EvConnect t ConnectOk;
              EvHTTPSRequest (via t) (HTTPSThrow TryNextServer);
              EvDisconnect t])
      resp out lg' resp' ->
    CandidateLoop (t :: rest) lg resp out lg' resp'
| CL_connect_exception : forall t rest lg resp e,
    e <> TryNextServer ->
    connectResult W lg t sessionInfo = ConnectThrow e ->
    CandidateLoop (t :: rest) lg resp (Thrown e)
      (lg ++ [EvConnect t (ConnectThrow e)]) resp
| CL_request_exception : forall t rest lg resp e,
    e <> TryNextServer ->
    connectResult W lg t sessionInfo = ConnectOk ->
    httpsRequest W (lg ++ [EvConnect t ConnectOk]) (via t) = HTTPSThrow e ->
    CandidateLoop (t :: rest) lg resp (Thrown e)
      (lg ++ [EvConnect t ConnectOk;
              EvHTTPSRequest (via t) (HTTPSThrow e);
              EvDisconnect t])
      resp.

(** What a pass over the candidates [ts] adds to the log. *)
Record LoopDelta (ts : list ITransport) (d : list Event) : Prop := {
  delta_events : Forall (loop_event ts) d;
  delta_holder : holder None d = Some None;
  delta_disconnects :
    forall t, In (EvConnect t ConnectOk) d -> In (EvDisconnect t) d;
  delta_order : exists k, map fst (connect_events d) = firstn k ts;
  delta_requests :
    map fst (https_events d) =
    map (fun tr => via (fst tr)) (filter connected_ok (connect_events d))
}.

(** The log once the selection is done, before the first candidate. *)
Definition selected (lg : list Event) : list Event :=
  lg ++ EvNewAll (newAll W) ::
        map EvDelete (filter (ineligible sessionInfo) (newAll W)).

(** What the fail-over through temporary transports adds to the log. *)
Definition FailoverDelta (post : list Event) : Prop :=
  exists d,
    LoopDelta (filter (eligible sessionInfo) (newAll W)) d /\
    post = EvNewAll (newAll W) ::
           map EvDelete (filter (ineligible sessionInfo) (newAll W)) ++
           d ++ map EvDelete (filter (eligible sessionInfo) (newAll W)).

(** A request that carries the caller's arguments unchanged to the
    session's server: to its web port, or to port 443 without the local
    proxy. *)
Definition to_session (c : HTTPSCall) : Prop :=
  address c = GetServerAddress sessionInfo /\
  certificate c = GetWebServerCertificate sessionInfo /\
  path c = requestPath /\
  headers c = additionalHeaders /\
  data c = additionalData /\
  dataLength c = additionalDataLength /\
  (port c = GetWebPort sessionInfo \/
   (port c = 443 /\ useLocalProxy c = false)).

(** ** General facts about logs *)

Ltac flatten_log := repeat (rewrite <- app_assoc; simpl).

Lemma bind_unfold :
  forall (A B : Type) (m : Cpp A) (k : A -> Cpp B) (s : State),
    bind m k s =
    match m s with
    | (Normal a, s') => k a s'
    | (Thrown e, s') => (Thrown e, s')
    | (AssertionFailed, s') => (AssertionFailed, s')
    end.
Proof. reflexivity. Qed.

Lemma holder_app : forall l1 l2 held,
  holder held (l1 ++ l2) =
  match holder held l1 with
  | Some held' => holder held' l2
  | None => None
  end.
Proof.
  induction l1 as [|e l1 IH]; intros l2 held; simpl.
  - reflexivity.
  - destruct (holder_step held e); [apply IH | reflexivity].
Qed.

Lemma https_events_app : forall l1 l2,
  https_events (l1 ++ l2) = https_events l1 ++ https_events l2.
Proof.
  induction l1 as [|e l1 IH]; intros l2; simpl; [reflexivity|].
  destruct e; simpl; rewrite IH; reflexivity.
Qed.

Lemma succeeded_app : forall l1 l2,
  succeeded (l1 ++ l2) = succeeded l1 || succeeded l2.
Proof.
  intros l1 l2. unfold succeeded. rewrite https_events_app.
  apply existsb_app.
Qed.

Lemma connect_events_app : forall l1 l2,
  connect_events (l1 ++ l2) = connect_events l1 ++ connect_events l2.
Proof.
  induction l1 as [|e l1 IH]; intros l2; simpl; [reflexivity|].
  destruct e; simpl; rewrite IH; reflexivity.
Qed.

Lemma loop_event_cons : forall t ts e,
  loop_event ts e -> loop_event (t :: ts) e.
Proof. intros t ts e; destruct e; simpl; auto. Qed.

Lemma holder_request_events : forall l held,
  Forall request_event l -> holder held l = Some held.
Proof.
  induction l as [|e l IH]; intros held H; simpl; [reflexivity|].
  inversion H as [|e' l' He Hl]; subst.
  destruct e; simpl in He; try contradiction; destruct held; simpl;
    apply IH; assumption.
Qed.

Lemma holder_deletes : forall ts, holder None (map EvDelete ts) = Some None.
Proof. induction ts as [|t ts IH]; simpl; [reflexivity | exact IH]. Qed.

Lemma polls_zero : forall l,
  (forall b, ~ In (EvCheckSignal b) l) -> polls l = 0%nat.
Proof.
  induction l as [|e l IH]; intros H; simpl; [reflexivity|].
  assert (Hl : polls l = 0%nat)
    by (apply IH; intros b Hb; apply (H b); right; exact Hb).
  destruct e; try exact Hl.
  exfalso. eapply H. left. reflexivity.
Qed.

Lemma direct_attempts_requests : forall l,
  Forall request_event l -> direct_attempts l = https_events l.
Proof.
  induction l as [|e l IH]; intros H; simpl; [reflexivity|].
  inversion H as [|e' l' He Hl]; subst.
  destruct e; simpl in He; try contradiction; rewrite IH by assumption;
    reflexivity.
Qed.

Lemma direct_attempts_until_enumeration : forall l ts post,
  Forall request_event l ->
  direct_attempts (l ++ EvNewAll ts :: post) = https_events l.
Proof.
  induction l as [|e l IH]; intros ts post H; simpl; [reflexivity|].
  inversion H as [|e' l' He Hl]; subst.
  destruct e; simpl in He; try contradiction; rewrite IH by assumption;
    reflexivity.
Qed.

(** ** The three early exits of [MakeRequest] *)

(** A stop signal that is up when the call starts ends the call at the
    first statement. *)
Lemma MakeRequest_stopped :
  forall adhocIfNeeded currentTransport response0,
    stopSignalled W [] = true ->
    run adhocIfNeeded currentTransport response0 =
    (Thrown StopException,
     {| log := [EvCheckSignal true]; response := response0;
        connection := None |}).
Proof.
  intros a ct r0 Hstop. unfold MakeRequest, bind, CheckSignal.
  simpl. rewrite Hstop. reflexivity.
Qed.

(** A null [requestPath] trips the assertion right after the stop check. *)
Lemma MakeRequest_null_path :
  forall adhocIfNeeded currentTransport response0,
    stopSignalled W [] = false ->
    requestPath = None ->
    run adhocIfNeeded currentTransport response0 =
    (AssertionFailed,
     {| log := [EvCheckSignal false]; response := response0;
        connection := None |}).
Proof.
  intros a ct r0 Hstop Hpath. unfold MakeRequest, bind, CheckSignal.
  simpl. rewrite Hstop, Hpath. reflexivity.
Qed.

(** Past the stop check and the assertion, the call is the [if] cascade
    run on a cleared [response]. *)
Lemma MakeRequest_started :
  forall adhocIfNeeded currentTransport response0,
    stopSignalled W [] = false ->
    requestPath <> None ->
    run adhocIfNeeded currentTransport response0 =
    (if transportConnected currentTransport then
       match currentTransport with
       | Some t =>
           HTTPSRequest_MakeRequest W
             (request_to sessionInfo requestPath additionalHeaders
                additionalData additionalDataLength
                (GetWebPort sessionInfo) (IsServerRequestTunnelled t))
       | None => ret false
       end
     else if negb adhocIfNeeded then ret false
     else
       bind (direct_loop W sessionInfo requestPath additionalHeaders
               additionalData additionalDataLength
               [GetWebPort sessionInfo; 443])
            (fun returned =>
               if returned then ret true
               else transport_failover W sessionInfo requestPath
                      additionalHeaders additionalData additionalDataLength))
      {| log := [EvCheckSignal false]; response := "";
         connection := None |}.
Proof.
  intros a ct r0 Hstop Hpath. unfold MakeRequest, bind, CheckSignal.
  simpl. rewrite Hstop.
  destruct requestPath as [p|]; [reflexivity | congruence].
Qed.

(** C1.  When [currentTransport] is present and reports connected, a call
    that gets past the stop check and the path assertion makes exactly one
    HTTPS request: to [sessionInfo]'s web port, with the local-proxy flag
    that the transport reports.  The call's result is that request's result
    and the caller's [response] is what the request left there.  The
    registry is not asked for transports and nothing is connected. *)
Theorem C1_connected_transport_single_request :
  forall adhocIfNeeded t response0,
    IsConnected t = true ->
    stopSignalled W [] = false ->
    requestPath <> None ->
    let c := request_to sessionInfo requestPath additionalHeaders
               additionalData additionalDataLength
               (GetWebPort sessionInfo) (IsServerRequestTunnelled t) in
    let r := httpsRequest W [EvCheckSignal false] c in
    let out := run adhocIfNeeded (Some t) response0 in
    port c = GetWebPort sessionInfo /\
    useLocalProxy c = IsServerRequestTunnelled t /\
    https_events (log (snd out)) = [(c, r)] /\
    fst out = https_outcome r /\
    (forall ok resp, r = HTTPSReturn ok resp -> response (snd out) = resp) /\
    connect_events (log (snd out)) = [] /\
    enumerations (log (snd out)) = 0%nat /\
    log (snd out) = [EvCheckSignal false; EvHTTPSRequest c r].
Proof.
  intros a t r0 Hconn Hstop Hpath c r out.
  assert (E : out =
    HTTPSRequest_MakeRequest W c
      {| log := [EvCheckSignal false]; response := "";
         connection := None |}).
  { unfold out. rewrite MakeRequest_started by assumption.
    simpl. rewrite Hconn. reflexivity. }
  unfold HTTPSRequest_MakeRequest in E. simpl in E. fold r in E.
  rewrite E. split; [reflexivity|]. split; [reflexivity|].
  destruct r as [ok resp|e]; simpl; repeat split; try reflexivity.
  - intros ok' resp' H. inversion H. reflexivity.
  - intros ok' resp' H. discriminate H.
Qed.

(** C6.  With no connected transport and [adhocIfNeeded] false there is no
    HTTPS request, no registry enumeration and no connect, whatever the
    stop signal and the path are; a call that gets past the stop check and
    the path assertion returns [false]. *)
Theorem C6_no_transport_no_adhoc :
  forall currentTransport response0,
    transportConnected currentTransport = false ->
    let out := run false currentTransport response0 in
    https_events (log (snd out)) = [] /\
    connect_events (log (snd out)) = [] /\
    enumerations (log (snd out)) = 0%nat /\
    (stopSignalled W [] = false -> requestPath <> None ->
     fst out = Normal false /\ log (snd out) = [EvCheckSignal false]).
Proof.
  intros ct r0 Hnot out. unfold out.
  destruct (stopSignalled W []) eqn:Hstop.
  - rewrite MakeRequest_stopped by assumption. simpl.
    repeat split; try reflexivity; discriminate.
  - assert (Hpath : requestPath <> None \/ requestPath = None)
      by (destruct requestPath; [left; discriminate | right; reflexivity]).
    destruct Hpath as [Hpath|Hpath].
    + rewrite MakeRequest_started by assumption.
      rewrite Hnot. simpl. repeat split; reflexivity.
    + rewrite MakeRequest_null_path by assumption. simpl.
      repeat split; try reflexivity; congruence.
Qed.

(** C7 (as amended).  A null [requestPath] never leads to an HTTPS request,
    a registry enumeration or a connect; when the stop signal is down at the
    start of the call the assertion fails, with the stop check as the only
    effect and the caller's [response] untouched. *)
Theorem C7_null_path_asserts_before_io :
  forall adhocIfNeeded currentTransport response0,
    requestPath = None ->
    let out := run adhocIfNeeded currentTransport response0 in
    https_events (log (snd out)) = [] /\
    connect_events (log (snd out)) = [] /\
    enumerations (log (snd out)) = 0%nat /\
    (stopSignalled W [] = false ->
     fst out = AssertionFailed /\
     log (snd out) = [EvCheckSignal false] /\
     response (snd out) = response0).
Proof.
  intros a ct r0 Hpath out. unfold out.
  destruct (stopSignalled W []) eqn:Hstop.
  - rewrite MakeRequest_stopped by assumption. simpl.
    repeat split; try reflexivity; discriminate.
  - rewrite MakeRequest_null_path by assumption. simpl.
    repeat split; reflexivity.
Qed.

(** ** The loop over the temporary transports *)

(** One iteration, case by case: the log it leaves, with the connection
    object destroyed on every path. *)
Lemma try_transport_cases :
  forall t s,
    attempt t s =
    match connectResult W (log s) t sessionInfo with
    | ConnectThrow e =>
        (caught e,
         {| log := log s ++ [EvConnect t (ConnectThrow e)];
            response := response s; connection := None |})
    | ConnectOk =>
        match httpsRequest W (log s ++ [EvConnect t ConnectOk]) (via t) with
        | HTTPSReturn true resp1 =>
            (Normal true,
             {| log := log s ++
                  [EvConnect t ConnectOk;
                   EvHTTPSRequest (via t) (HTTPSReturn true resp1);
                   EvDisconnect t];
                response := resp1; connection := None |})
        | HTTPSReturn false resp1 =>
            (Normal false,
             {| log := log s ++
                  [EvConnect t ConnectOk;
                   EvHTTPSRequest (via t) (HTTPSReturn false resp1);
                   EvPrint (TransportFailed (GetTransportProtocolName t));
                   EvDisconnect t];
                response := resp1; connection := None |})
        | HTTPSThrow e =>
            (caught e,
             {| log := log s ++
                  [EvConnect t ConnectOk;
                   EvHTTPSRequest (via t) (HTTPSThrow e);
                   EvDisconnect t];
                response := response s; connection := None |})
        end
    end.
Proof.
  intros t s.
  unfold try_transport, bind, TransportConnection_construct, scoped,
    try_catch_TryNextServer, bind, TransportConnection_Connect,
    HTTPSRequest_MakeRequest, emit, ret, TransportConnection_destroy,
    record, set_connection, set_response.
  simpl.
  destruct (connectResult W (log s) t sessionInfo) as [|e]; simpl.
  - destruct (httpsRequest W (log s ++ [EvConnect t ConnectOk]) (via t))
      as [[|] resp1|e]; simpl; flatten_log; try reflexivity.
    destruct e; simpl; flatten_log; reflexivity.
  - destruct e; reflexivity.
Qed.

Ltac use_IH IH :=
  match goal with
  | |- context [transport_loop _ _ _ _ _ _ _ ?st] => exact (IH st)
  end.

(** The loop function runs by the rules above, from every state. *)
Lemma transport_loop_runs :
  forall ts s,
    CandidateLoop ts (log s) (response s)
      (fst (loop ts s)) (log (snd (loop ts s))) (response (snd (loop ts s))).
Proof.
  induction ts as [|t rest IH]; intros s.
  - simpl. apply CL_exhausted.
  - simpl. unfold bind. rewrite try_transport_cases.
    destruct (connectResult W (log s) t sessionInfo) as [|e] eqn:Hc.
    + destruct (httpsRequest W (log s ++ [EvConnect t ConnectOk]) (via t))
        as [[|] resp1|e] eqn:Hh.
      * simpl. apply CL_success; assumption.
      * eapply CL_request_failed; try eassumption. use_IH IH.
      * destruct e; simpl.
        -- apply CL_request_exception; [discriminate | assumption..].
        -- eapply CL_request_try_next; try eassumption. use_IH IH.
        -- apply CL_request_exception; [discriminate | assumption..].
    + destruct e; simpl.
      * apply CL_connect_exception; [discriminate | assumption].
      * eapply CL_acquisition_failed; try eassumption. use_IH IH.
      * apply CL_connect_exception; [discriminate | assumption].
Qed.

(** The loop leaves no transport in a connection object. *)
Lemma transport_loop_connection :
  forall ts s,
    connection s = None -> connection (snd (loop ts s)) = None.
Proof.
  induction ts as [|t rest IH]; intros s Hs.
  - exact Hs.
  - simpl. unfold bind. rewrite try_transport_cases.
    destruct (connectResult W (log s) t sessionInfo) as [|e].
    + destruct (httpsRequest W (log s ++ [EvConnect t ConnectOk]) (via t))
        as [[|] resp1|e]; try reflexivity.
      * apply IH. reflexivity.
      * destruct e; try reflexivity. apply IH. reflexivity.
    + destruct e; try reflexivity. apply IH. reflexivity.
Qed.

Lemma LoopDelta_cons_block :
  forall t rest block d0,
    Forall (loop_event (t :: rest)) block ->
    holder None block = Some None ->
    (forall u, In (EvConnect u ConnectOk) block ->
               In (EvDisconnect u) block) ->
    (exists r, connect_events block = [(t, r)]) ->
    map fst (https_events block) =
      map (fun tr => via (fst tr)) (filter connected_ok (connect_events block)) ->
    LoopDelta rest d0 ->
    LoopDelta (t :: rest) (block ++ d0).
Proof.
  intros t rest block d0 Hev Hh Hd [r Hc] Hr [Hev0 Hh0 Hd0 [k Hk] Hr0].
  constructor.
  - apply Forall_app. split; [exact Hev|].
    eapply Forall_impl; [|exact Hev0]. intros e. apply loop_event_cons.
  - rewrite holder_app, Hh. exact Hh0.
  - intros u Hin. apply in_app_or in Hin. apply in_or_app.
    destruct Hin as [Hin|Hin]; [left; apply Hd | right; apply Hd0]; exact Hin.
  - exists (S k). rewrite connect_events_app, map_app, Hc, Hk. reflexivity.
  - rewrite https_events_app, connect_events_app, filter_app, !map_app.
    rewrite Hr, Hr0. reflexivity.
Qed.

Lemma LoopDelta_nil : forall ts, LoopDelta ts [].
Proof.
  intros ts. constructor; simpl; auto.
  exists 0%nat. reflexivity.
Qed.

Ltac block_facts :=
  simpl;
  repeat match goal with
  | |- Forall _ [] => constructor
  | |- Forall _ (_ :: _) => constructor; simpl; auto
  | |- exists r, [(?t, ?x)] = [(?t, r)] => exists x; reflexivity
  | |- forall u, _ \/ _ -> _ =>
      let u := fresh "u" in let H := fresh "H" in
      intros u H;
      repeat (destruct H as [H|H]; try discriminate H; try contradiction);
      inversion H; subst; simpl; auto 6
  | |- forall u, False -> _ => intros ? []
  | |- context [Nat.eqb ?x ?x] => rewrite Nat.eqb_refl
  | |- _ = _ => reflexivity
  end.

(** Every run by the rules ends normally or by an exception; what it adds
    to the log is well formed, and the run ends with [true] exactly when
    one of its requests returned [true]. *)
Lemma CandidateLoop_delta :
  forall ts lg resp out lg' resp',
    CandidateLoop ts lg resp out lg' resp' ->
    out <> AssertionFailed /\
    exists d,
      lg' = lg ++ d /\ LoopDelta ts d /\
      (out = Normal true <-> succeeded d = true).
Proof.
  intros ts lg resp out lg' resp' H.
  induction H as
    [ lg resp
    | t rest lg resp out lg' resp' Hc _ [Hout [d0 [E [D0 S0]]]]
    | t rest lg resp resp1 Hc Hh
    | t rest lg resp resp1 out lg' resp' Hc Hh _ [Hout [d0 [E [D0 S0]]]]
    | t rest lg resp out lg' resp' Hc Hh _ [Hout [d0 [E [D0 S0]]]]
    | t rest lg resp e He Hc
    | t rest lg resp e He Hc Hh ].
  - split; [discriminate|]. exists []. split; [|split].
    + symmetry. apply app_nil_r.
    + apply LoopDelta_nil.
    + split; discriminate.
  - split; [exact Hout|]. eexists. split; [|split].
    + rewrite E, <- app_assoc. reflexivity.
    + apply LoopDelta_cons_block; [block_facts.. | exact D0].
    + rewrite succeeded_app. exact S0.
  - split; [discriminate|]. eexists. split; [reflexivity|]. split.
    + rewrite <- (app_nil_r [_; _; _]).
      apply LoopDelta_cons_block; [block_facts.. | apply LoopDelta_nil].
    + split; reflexivity.
  - split; [exact Hout|]. eexists. split; [|split].
    + rewrite E, <- app_assoc. reflexivity.
    + apply LoopDelta_cons_block; [block_facts.. | exact D0].
    + rewrite succeeded_app. exact S0.
  - split; [exact Hout|]. eexists. split; [|split].
    + rewrite E, <- app_assoc. reflexivity.
    + apply LoopDelta_cons_block; [block_facts.. | exact D0].
    + rewrite succeeded_app. exact S0.
  - split; [discriminate|]. eexists. split; [reflexivity|]. split.
    + rewrite <- (app_nil_r [_]).
      apply LoopDelta_cons_block; [block_facts.. | apply LoopDelta_nil].
    + split; discriminate.
  - split; [discriminate|]. eexists. split; [reflexivity|]. split.
    + rewrite <- (app_nil_r [_; _; _]).
      apply LoopDelta_cons_block; [block_facts.. | apply LoopDelta_nil].
    + split; discriminate.
Qed.

(** *** Selection and disposal *)

Lemma GetTempTransports_loop_filter :
  forall all_transports o_tempTransports s,
    GetTempTransports_loop sessionInfo all_transports o_tempTransports s =
    (Normal (o_tempTransports ++ filter (eligible sessionInfo) all_transports),
     {| log := log s ++
                 map EvDelete (filter (ineligible sessionInfo) all_transports);
        response := response s; connection := connection s |}).
Proof.
  induction all_transports as [|it rest IH]; intros acc s; simpl.
  - unfold ret. rewrite !app_nil_r. destruct s; reflexivity.
  - unfold eligible, ineligible.
    destruct (IsHandshakeRequired it sessionInfo); simpl.
    + unfold bind, emit. rewrite IH. simpl. flatten_log. reflexivity.
    + rewrite IH. flatten_log. reflexivity.
Qed.

Lemma GetTempTransports_filter :
  forall s,
    GetTempTransports W sessionInfo s =
    (Normal (filter (eligible sessionInfo) (newAll W)),
     {| log := log s ++ EvNewAll (newAll W) ::
                 map EvDelete (filter (ineligible sessionInfo) (newAll W));
        response := response s; connection := connection s |}).
Proof.
  intros s. unfold GetTempTransports, bind, emit.
  rewrite GetTempTransports_loop_filter. simpl. flatten_log. reflexivity.
Qed.

Lemma delete_all_log :
  forall ts s,
    delete_all ts s =
    {| log := log s ++ map EvDelete ts;
       response := response s; connection := connection s |}.
Proof.
  induction ts as [|t rest IH]; intros s; simpl.
  - rewrite app_nil_r. destruct s; reflexivity.
  - rewrite IH. simpl. flatten_log. reflexivity.
Qed.

(** The fail-over through temporary transports: the selection, a run of
    the loop over what was selected, and the deletion of the selected
    transports. *)
Lemma transport_failover_runs :
  forall s,
    let candidates := filter (eligible sessionInfo) (newAll W) in
    exists lg',
      CandidateLoop candidates (selected (log s)) (response s)
        (fst (failover s)) lg' (response (snd (failover s))) /\
      log (snd (failover s)) = lg' ++ map EvDelete candidates /\
      (connection s = None -> connection (snd (failover s)) = None).
Proof.
  intros s candidates. unfold transport_failover, bind.
  rewrite GetTempTransports_filter. fold candidates. unfold scoped.
  set (s1 := {| log := log s ++ EvNewAll (newAll W) ::
                   map EvDelete (filter (ineligible sessionInfo) (newAll W));
                response := response s; connection := connection s |}).
  pose proof (transport_loop_runs candidates s1) as Hrun.
  destruct (CandidateLoop_delta _ _ _ _ _ _ Hrun) as [Hout _].
  pose proof (transport_loop_connection candidates s1) as Hconn.
  destruct (loop candidates s1) as [out s2]. simpl in *.
  exists (log s2).
  destruct out as [b|e|]; [| |congruence];
    rewrite delete_all_log; simpl; auto.
Qed.

(** *** The direct attempts *)

Lemma DirectDelta_single :
  forall p rest r,
    DirectDelta (p :: rest) [EvHTTPSRequest (request p false) r].
Proof.
  intros p rest r. constructor; simpl.
  - repeat constructor.
  - exists 1%nat. reflexivity.
  - repeat constructor.
Qed.

Lemma direct_loop_delta :
  forall ports s,
    exists d,
      log (snd (direct ports s)) = log s ++ d /\
      DirectDelta ports d /\
      connection (snd (direct ports s)) = connection s.
Proof.
  induction ports as [|p rest IH]; intros s.
  - exists []. simpl. rewrite app_nil_r. split; [reflexivity|].
    split; [|reflexivity]. constructor; simpl; try constructor.
    exists 0%nat. reflexivity.
  - simpl. unfold bind, HTTPSRequest_MakeRequest.
    destruct (httpsRequest W (log s) (request p false)) as [[|] resp|e] eqn:Hh.
    + exists [EvHTTPSRequest (request p false) (HTTPSReturn true resp)].
      simpl. split; [reflexivity|]. split; [|reflexivity].
      apply DirectDelta_single.
    + simpl. unfold emit.
      match goal with
      | |- context [direct_loop _ _ _ _ _ _ rest ?st] =>
          destruct (IH st) as [d [E [[Hev [k Hk] Hp] Hc]]]
      end.
      exists (EvHTTPSRequest (request p false) (HTTPSReturn false resp)
              :: EvPrint (HttpsFailed p) :: d).
      split; [rewrite E; simpl; flatten_log; reflexivity|].
      split; [|rewrite Hc; reflexivity].
      constructor; simpl.
      * repeat constructor; assumption.
      * exists (S k). simpl. rewrite Hk. reflexivity.
      * constructor; [reflexivity | assumption].
    + exists [EvHTTPSRequest (request p false) (HTTPSThrow e)].
      simpl. split; [reflexivity|]. split; [|reflexivity].
      apply DirectDelta_single.
Qed.

(** The loop over two ports, case by case. *)
Lemma direct_loop_two_ports :
  forall p1 p2 s,
    direct [p1; p2] s =
    match httpsRequest W (log s) (request p1 false) with
    | HTTPSThrow e =>
        (Thrown e,
         {| log := log s ++ [EvHTTPSRequest (request p1 false) (HTTPSThrow e)];
            response := response s; connection := connection s |})
    | HTTPSReturn true resp1 =>
        (Normal true,
         {| log := log s ++
              [EvHTTPSRequest (request p1 false) (HTTPSReturn true resp1)];
            response := resp1; connection := connection s |})
    | HTTPSReturn false resp1 =>
        let first :=
          [EvHTTPSRequest (request p1 false) (HTTPSReturn false resp1);
           EvPrint (HttpsFailed p1)] in
        match httpsRequest W (log s ++ first) (request p2 false) with
        | HTTPSThrow e =>
            (Thrown e,
             {| log := log s ++ first ++
                  [EvHTTPSRequest (request p2 false) (HTTPSThrow e)];
                response := resp1; connection := connection s |})
        | HTTPSReturn true resp2 =>
            (Normal true,
             {| log := log s ++ first ++
                  [EvHTTPSRequest (request p2 false) (HTTPSReturn true resp2)];
                response := resp2; connection := connection s |})
        | HTTPSReturn false resp2 =>
            (Normal false,
             {| log := log s ++ first ++
                  [EvHTTPSRequest (request p2 false) (HTTPSReturn false resp2);
                   EvPrint (HttpsFailed p2)];
                response := resp2; connection := connection s |})
        end
    end.
Proof.
  intros p1 p2 s. simpl.
  unfold bind, HTTPSRequest_MakeRequest, emit, ret, record, set_response.
  simpl.
  destruct (httpsRequest W (log s) (request p1 false)) as [[|] resp1|e];
    simpl; try reflexivity.
  flatten_log.
  destruct (httpsRequest W _ (request p2 false)) as [[|] resp2|e];
    simpl; flatten_log; reflexivity.
Qed.

(** *** The log of a whole call *)

Lemma transport_failover_delta :
  forall s,
    connection s = None ->
    exists post,
      log (snd (failover s)) = log s ++ post /\
      FailoverDelta post /\
      connection (snd (failover s)) = None.
Proof.
  intros s Hs.
  destruct (transport_failover_runs s) as [lg' [Hrun [Hlog Hconn]]].
  destruct (CandidateLoop_delta _ _ _ _ _ _ Hrun) as [_ [d [E [D _]]]].
  eexists. split; [|split; [exists d; split; [exact D | reflexivity] | auto]].
  rewrite Hlog, E. unfold selected. flatten_log. reflexivity.
Qed.

(** The log of a call that fails over: the stop check, the direct
    attempts, then nothing more or the fail-over through transports. *)
Lemma MakeRequest_adhoc_log :
  forall currentTransport response0,
    transportConnected currentTransport = false ->
    stopSignalled W [] = false ->
    requestPath <> None ->
    exists pre post,
      log (snd (run true currentTransport response0)) =
        EvCheckSignal false :: pre ++ post /\
      DirectDelta [GetWebPort sessionInfo; 443] pre /\
      (post = [] \/ FailoverDelta post) /\
      connection (snd (run true currentTransport response0)) = None.
Proof.
  intros ct r0 Hnot Hstop Hpath.
  rewrite MakeRequest_started by assumption. rewrite Hnot.
  change (negb true) with false. cbv match. rewrite bind_unfold.
  set (s0 := {| log := [EvCheckSignal false]; response := "";
                connection := None |}).
  destruct (direct_loop_delta [GetWebPort sessionInfo; 443] s0)
    as [pre [E [D Hc]]].
  destruct (direct [GetWebPort sessionInfo; 443] s0) as [out s1].
  simpl in E, Hc.
  destruct out as [[|]|e|].
  - exists pre, []. simpl. rewrite app_nil_r. auto.
  - destruct (transport_failover_delta s1 Hc) as [post [E' [F Hc']]].
    exists pre, post. rewrite E', E. simpl. auto.
  - exists pre, []. simpl. rewrite app_nil_r. auto.
  - exists pre, []. simpl. rewrite app_nil_r. auto.
Qed.

(** The log of any call. *)
Lemma MakeRequest_log :
  forall adhocIfNeeded currentTransport response0,
    exists pre post,
      log (snd (run adhocIfNeeded currentTransport response0)) =
        EvCheckSignal (stopSignalled W []) :: pre ++ post /\
      Forall request_event pre /\
      (post = [] \/ FailoverDelta post) /\
      connection (snd (run adhocIfNeeded currentTransport response0)) = None.
Proof.
  intros a ct r0.
  destruct (stopSignalled W []) eqn:Hstop.
  { rewrite MakeRequest_stopped by assumption.
    exists [], []. simpl. auto. }
  assert (Hpath : requestPath <> None \/ requestPath = None)
    by (destruct requestPath; [left; discriminate | right; reflexivity]).
  destruct Hpath as [Hpath|Hpath].
  2:{ rewrite MakeRequest_null_path by assumption.
      exists [], []. simpl. auto. }
  destruct (transportConnected ct) eqn:Hct.
  - rewrite MakeRequest_started by assumption. rewrite Hct.
    destruct ct as [t|]; [|discriminate Hct].
    unfold HTTPSRequest_MakeRequest. simpl.
    exists [EvHTTPSRequest (via t)
              (httpsRequest W [EvCheckSignal false] (via t))], [].
    destruct (httpsRequest W [EvCheckSignal false] (via t)); simpl;
      (split; [reflexivity|]); (split; [repeat constructor | auto]).
  - destruct a.
    + destruct (MakeRequest_adhoc_log ct r0 Hct Hstop Hpath)
        as [pre [post [E [[Hev _ _] [T Hc]]]]].
      exists pre, post. auto.
    + rewrite MakeRequest_started by assumption. rewrite Hct. simpl.
      exists [], []. simpl. auto.
Qed.

(** Where the transports of a log come from.  A transport that appears in
    a [Connect] was created by the registry and is eligible; one that was
    connected successfully is disconnected and deleted in the same call. *)
Lemma FailoverDelta_transports :
  forall post,
    FailoverDelta post ->
    (forall b, ~ In (EvCheckSignal b) post) /\
    (forall e u, In e post -> event_transport e = Some u -> In u (newAll W)) /\
    (forall t r, In (EvConnect t r) post ->
       IsHandshakeRequired t sessionInfo = false /\
       (r = ConnectOk -> In (EvDisconnect t) post /\ In (EvDelete t) post)) /\
    holder None post = Some None.
Proof.
  intros post [d [[Hev Hh Hd _ _] E]]. subst post.
  rewrite Forall_forall in Hev.
  assert (Hcand : forall u,
            In u (filter (eligible sessionInfo) (newAll W)) ->
            In u (newAll W) /\ IsHandshakeRequired u sessionInfo = false).
  { intros u Hu. apply filter_In in Hu. destruct Hu as [Hu He].
    split; [exact Hu|]. unfold eligible in He.
    destruct (IsHandshakeRequired u sessionInfo); [discriminate | reflexivity]. }
  split; [|split; [|split]].
  - intros b [Hb|Hb]; [discriminate Hb|].
    apply in_app_or in Hb. destruct Hb as [Hb|Hb].
    { apply in_map_iff in Hb. destruct Hb as [x [Hx _]]. discriminate Hx. }
    apply in_app_or in Hb. destruct Hb as [Hb|Hb].
    { apply Hev in Hb. exact Hb. }
    apply in_map_iff in Hb. destruct Hb as [x [Hx _]]. discriminate Hx.
  - intros e u [He|He] Hu; [subst e; discriminate Hu|].
    apply in_app_or in He. destruct He as [He|He].
    { apply in_map_iff in He. destruct He as [x [Hx Hin]]. subst e.
      inversion Hu; subst. apply filter_In in Hin. apply Hin. }
    apply in_app_or in He. destruct He as [He|He].
    { apply Hev in He. destruct e; simpl in He; try contradiction;
        try discriminate Hu; inversion Hu; subst; apply Hcand; exact He. }
    apply in_map_iff in He. destruct He as [x [Hx Hin]]. subst e.
    inversion Hu; subst. apply Hcand. exact Hin.
  - intros t r [Ht|Ht]; [discriminate Ht|].
    apply in_app_or in Ht. destruct Ht as [Ht|Ht].
    { apply in_map_iff in Ht. destruct Ht as [x [Hx _]]. discriminate Hx. }
    apply in_app_or in Ht. destruct Ht as [Ht|Ht].
    2:{ apply in_map_iff in Ht. destruct Ht as [x [Hx _]]. discriminate Hx. }
    pose proof (Hev _ Ht) as Hin. simpl in Hin.
    split; [apply Hcand; exact Hin|].
    intros Hr. subst r. split.
    + right. apply in_or_app. right. apply in_or_app. left.
      apply Hd. exact Ht.
    + right. apply in_or_app. right. apply in_or_app. right.
      apply in_map. exact Hin.
  - simpl. rewrite holder_app, holder_deletes, holder_app, Hh.
    apply holder_deletes.
Qed.

Lemma MakeRequest_transports :
  forall adhocIfNeeded currentTransport response0,
    let lg := log (snd (run adhocIfNeeded currentTransport response0)) in
    polls lg = 1%nat /\
    (forall e u, In e lg -> event_transport e = Some u -> In u (newAll W)) /\
    (forall t r, In (EvConnect t r) lg ->
       IsHandshakeRequired t sessionInfo = false /\
       (r = ConnectOk -> In (EvDisconnect t) lg /\ In (EvDelete t) lg)) /\
    holder None lg = Some None.
Proof.
  intros a ct r0 lg.
  destruct (MakeRequest_log a ct r0) as [pre [post [E [Hpre [Hpost _]]]]].
  fold lg in E. rewrite E. clear E lg.
  assert (Hreq : forall e, In e pre -> request_event e)
    by (apply Forall_forall; exact Hpre).
  assert (Htail :
    (forall b, ~ In (EvCheckSignal b) post) /\
    (forall e u, In e post -> event_transport e = Some u -> In u (newAll W)) /\
    (forall t r, In (EvConnect t r) post ->
       IsHandshakeRequired t sessionInfo = false /\
       (r = ConnectOk -> In (EvDisconnect t) post /\ In (EvDelete t) post)) /\
    holder None post = Some None).
  { destruct Hpost as [Hpost|Hpost].
    - subst post. repeat split; try (intros; contradiction); auto.
    - apply FailoverDelta_transports. exact Hpost. }
  destruct Htail as [Hp [Ht [Hc Hh]]].
  split; [|split; [|split]].
  - simpl. f_equal. apply polls_zero. intros b Hb.
    apply in_app_or in Hb. destruct Hb as [Hb|Hb].
    + apply Hreq in Hb. exact Hb.
    + exact (Hp b Hb).
  - intros e u [He|He] Hu; [subst e; discriminate Hu|].
    apply in_app_or in He. destruct He as [He|He].
    + apply Hreq in He. destruct e; simpl in He; try contradiction;
        discriminate Hu.
    + exact (Ht e u He Hu).
  - intros t r [Hin|Hin]; [discriminate Hin|].
    apply in_app_or in Hin. destruct Hin as [Hin|Hin].
    + apply Hreq in Hin. contradiction.
    + destruct (Hc t r Hin) as [Hhs Hok]. split; [exact Hhs|].
      intros Hr. destruct (Hok Hr) as [H1 H2].
      split; right; apply in_or_app; right; assumption.
  - simpl. rewrite holder_app, holder_request_events by assumption.
    exact Hh.
Qed.

(** ** The claims about the fail-over *)

(** C3 (as amended).  [MakeRequest] polls the stop signal exactly once, as
    its first effect.  If the signal is up at that point the call ends
    with the stop exception: no HTTPS request is made, the registry is
    not asked for transports, nothing is connected and the caller's
    [response] is untouched. *)
Theorem C3_stop_signal_polled_once_at_start :
  forall adhocIfNeeded currentTransport response0,
    let out := run adhocIfNeeded currentTransport response0 in
    polls (log (snd out)) = 1%nat /\
    (exists rest,
       log (snd out) = EvCheckSignal (stopSignalled W []) :: rest /\
       polls rest = 0%nat) /\
    (stopSignalled W [] = true ->
     out = (Thrown StopException,
            {| log := [EvCheckSignal true]; response := response0;
               connection := None |})).
Proof.
  intros a ct r0 out.
  destruct (MakeRequest_transports a ct r0) as [Hpolls _].
  fold out in Hpolls. split; [exact Hpolls|]. split.
  - destruct (MakeRequest_log a ct r0) as [pre [post [E _]]].
    fold out in E. exists (pre ++ post). split; [exact E|].
    rewrite E in Hpolls. simpl in Hpolls. congruence.
  - intros Hstop. apply MakeRequest_stopped. exact Hstop.
Qed.

(** C4.  On every path out of [MakeRequest] (a returned result, an
    exception, a failed assertion) the log replays without a violation and
    ends with no transport held: a transport is connected only while none
    is held, the next event about a held transport is its disconnect, and
    it is not deleted while held.  Every transport that was connected
    successfully has been disconnected and deleted by the time the call is
    left, and the connection object holds nothing. *)
Theorem C4_temporary_transport_released_on_every_path :
  forall adhocIfNeeded currentTransport response0,
    let out := run adhocIfNeeded currentTransport response0 in
    holder None (log (snd out)) = Some None /\
    connection (snd out) = None /\
    (forall t, In (EvConnect t ConnectOk) (log (snd out)) ->
       In (EvDisconnect t) (log (snd out)) /\
       In (EvDelete t) (log (snd out))).
Proof.
  intros a ct r0 out.
  destruct (MakeRequest_transports a ct r0) as [_ [_ [Hc Hh]]].
  destruct (MakeRequest_log a ct r0) as [_ [_ [_ [_ [_ Hconn]]]]].
  fold out in Hc, Hh, Hconn.
  split; [exact Hh|]. split; [exact Hconn|].
  intros t Ht. destruct (Hc t ConnectOk Ht) as [_ Hok]. apply Hok. reflexivity.
Qed.

(** C5.  [GetTempTransports] returns the transports of the registry that
    report no handshake required for [sessionInfo], in the registry's
    order; the others are deleted there, in the registry's order, right
    after the enumeration.  In a call of [MakeRequest] every [Connect] is
    on a transport that reports no handshake required. *)
Theorem C5_selection_keeps_handshake_free_transports :
  (forall s,
     GetTempTransports W sessionInfo s =
     (Normal (filter (eligible sessionInfo) (newAll W)),
      {| log := log s ++ EvNewAll (newAll W) ::
                  map EvDelete (filter (ineligible sessionInfo) (newAll W));
         response := response s; connection := connection s |})) /\
  (forall adhocIfNeeded currentTransport response0 t r,
     In (EvConnect t r)
        (log (snd (run adhocIfNeeded currentTransport response0))) ->
     IsHandshakeRequired t sessionInfo = false /\ In t (newAll W)).
Proof.
  split.
  - apply GetTempTransports_filter.
  - intros a ct r0 t r Hin.
    destruct (MakeRequest_transports a ct r0) as [_ [Ht [Hc _]]].
    split.
    + apply (Hc t r Hin).
    + apply (Ht (EvConnect t r) t Hin). reflexivity.
Qed.

(** C10.  A [currentTransport] that is present but reports disconnected
    gives the same result, the same [response] and the same log as an
    absent one.  The transports that the call connects, disconnects or
    deletes are all objects the registry created in this call. *)
Theorem C10_disconnected_transport_as_absent :
  forall adhocIfNeeded t response0,
    IsConnected t = false ->
    run adhocIfNeeded (Some t) response0 = run adhocIfNeeded None response0 /\
    (forall e u,
       In e (log (snd (run adhocIfNeeded (Some t) response0))) ->
       event_transport e = Some u -> In u (newAll W)).
Proof.
  intros a t r0 Hdis. split.
  - unfold MakeRequest. simpl transportConnected. rewrite Hdis. reflexivity.
  - destruct (MakeRequest_transports a (Some t) r0) as [_ [Ht _]].
    exact Ht.
Qed.

(** A call that fails over, case by case on the two direct attempts. *)
Lemma MakeRequest_adhoc_cases :
  forall currentTransport response0,
    transportConnected currentTransport = false ->
    stopSignalled W [] = false ->
    requestPath <> None ->
    let p := GetWebPort sessionInfo in
    run true currentTransport response0 =
    match httpsRequest W [EvCheckSignal false] (request p false) with
    | HTTPSThrow e =>
        (Thrown e,
         {| log := [EvCheckSignal false;
                    EvHTTPSRequest (request p false) (HTTPSThrow e)];
            response := ""; connection := None |})
    | HTTPSReturn true resp1 =>
        (Normal true,
         {| log := [EvCheckSignal false;
                    EvHTTPSRequest (request p false) (HTTPSReturn true resp1)];
            response := resp1; connection := None |})
    | HTTPSReturn false resp1 =>
        let first :=
          [EvCheckSignal false;
           EvHTTPSRequest (request p false) (HTTPSReturn false resp1);
           EvPrint (HttpsFailed p)] in
        match httpsRequest W first (request 443 false) with
        | HTTPSThrow e =>
            (Thrown e,
             {| log := first ++
                  [EvHTTPSRequest (request 443 false) (HTTPSThrow e)];
                response := resp1; connection := None |})
        | HTTPSReturn true resp2 =>
            (Normal true,
             {| log := first ++
                  [EvHTTPSRequest (request 443 false)
                     (HTTPSReturn true resp2)];
                response := resp2; connection := None |})
        | HTTPSReturn false resp2 =>
            failover
              {| log := first ++
                   [EvHTTPSRequest (request 443 false)
                      (HTTPSReturn false resp2);
                    EvPrint (HttpsFailed 443)];
                 response := resp2; connection := None |}
        end
    end.
Proof.
  intros ct r0 Hnot Hstop Hpath p.
  rewrite MakeRequest_started by assumption. rewrite Hnot.
  change (negb true) with false. cbv match. rewrite bind_unfold.
  rewrite direct_loop_two_ports. fold p. simpl log.
  destruct (httpsRequest W [EvCheckSignal false] (request p false))
    as [[|] resp1|e]; try reflexivity.
  cbv zeta. simpl app.
  destruct (httpsRequest W _ (request 443 false)) as [[|] resp2|e];
    reflexivity.
Qed.

(** C2 (as amended).  In a call that reaches the direct attempts, the
    ports tried are [sessionInfo]'s web port and then, when that request
    returned [false], port 443: no port is skipped for being equal to one
    already tried, so with web port 443 and a first request that returned
    [false] port 443 is tried twice. *)
Theorem C2_direct_ports_in_order_without_skipping :
  forall currentTransport response0,
    transportConnected currentTransport = false ->
    stopSignalled W [] = false ->
    requestPath <> None ->
    direct_ports (log (snd (run true currentTransport response0))) =
    match httpsRequest W [EvCheckSignal false]
            (request (GetWebPort sessionInfo) false) with
    | HTTPSReturn false _ => [GetWebPort sessionInfo; 443]
    | _ => [GetWebPort sessionInfo]
    end.
Proof.
  intros ct r0 Hnot Hstop Hpath.
  rewrite MakeRequest_adhoc_cases by assumption. cbv zeta.
  destruct (httpsRequest W [EvCheckSignal false]
              (request (GetWebPort sessionInfo) false))
    as [[|] resp1|e]; try reflexivity.
  destruct (httpsRequest W _ (request 443 false)) as [[|] resp2|e];
    try reflexivity.
  match goal with
  | |- context [failover ?st] =>
      destruct (transport_failover_delta st eq_refl)
        as [post [E [[d [_ Hpost]] _]]]
  end.
  rewrite E, Hpost. reflexivity.
Qed.

(** C8.  In a call that reaches the direct attempts, every direct attempt
    is made with the local-proxy flag off, and the ports tried are a prefix
    of the list of [sessionInfo]'s web port and 443, in that order.  A
    first request that returns [true] ends the call with [true]; one that
    returns [false] is followed by the request to port 443; if that one
    returns [true] the call ends with [true], and if it returns [false]
    the call goes on as the fail-over through temporary transports. *)
Theorem C8_direct_attempts_in_order_without_proxy :
  forall currentTransport response0,
    transportConnected currentTransport = false ->
    stopSignalled W [] = false ->
    requestPath <> None ->
    let p := GetWebPort sessionInfo in
    let r1 := httpsRequest W [EvCheckSignal false] (request p false) in
    let first :=
      [EvCheckSignal false; EvHTTPSRequest (request p false) r1;
       EvPrint (HttpsFailed p)] in
    let r2 := httpsRequest W first (request 443 false) in
    let out := run true currentTransport response0 in
    Forall (fun cr => useLocalProxy (fst cr) = false)
      (direct_attempts (log (snd out))) /\
    (exists k, direct_ports (log (snd out)) = firstn k [p; 443]) /\
    (forall resp1,
       r1 = HTTPSReturn true resp1 ->
       out = (Normal true,
              {| log := [EvCheckSignal false;
                         EvHTTPSRequest (request p false) r1];
                 response := resp1; connection := None |})) /\
    (forall resp1 resp2,
       r1 = HTTPSReturn false resp1 ->
       r2 = HTTPSReturn true resp2 ->
       out = (Normal true,
              {| log := first ++ [EvHTTPSRequest (request 443 false) r2];
                 response := resp2; connection := None |})) /\
    (forall resp1 resp2,
       r1 = HTTPSReturn false resp1 ->
       r2 = HTTPSReturn false resp2 ->
       out = failover
               {| log := first ++ [EvHTTPSRequest (request 443 false) r2;
                                   EvPrint (HttpsFailed 443)];
                  response := resp2; connection := None |}).
Proof.
  intros ct r0 Hnot Hstop Hpath. cbv zeta.
  assert (Hdirect :
    exists pre,
      direct_attempts (log (snd (run true ct r0))) = https_events pre /\
      DirectDelta [GetWebPort sessionInfo; 443] pre).
  { destruct (MakeRequest_adhoc_log ct r0 Hnot Hstop Hpath)
      as [pre [post [E [D [Hpost _]]]]].
    exists pre. split; [|exact D]. rewrite E. simpl.
    destruct D as [Hev _ _].
    destruct Hpost as [Hpost|[d [_ Hpost]]]; subst post.
    - rewrite app_nil_r. apply direct_attempts_requests. exact Hev.
    - apply direct_attempts_until_enumeration. exact Hev. }
  destruct Hdirect as [pre [Hda [_ Hk Hflag]]].
  split; [rewrite Hda; exact Hflag|].
  split; [unfold direct_ports; rewrite Hda; exact Hk|].
  pose proof (MakeRequest_adhoc_cases ct r0 Hnot Hstop Hpath) as Hcases.
  cbv zeta in Hcases.
  split; [|split].
  - intros resp1 H1. rewrite Hcases, H1. reflexivity.
  - intros resp1 resp2 H1 H2. rewrite H1 in H2.
    rewrite Hcases, H1, H2. reflexivity.
  - intros resp1 resp2 H1 H2. rewrite H1 in H2.
    rewrite Hcases, H1, H2. reflexivity.
Qed.

(** C9.  The fail-over through temporary transports runs the loop by the
    rules of [CandidateLoop] over the selected transports, in the order of
    the selection, starting from the log that the selection leaves; the
    selected transports are deleted after the loop.  [Connect] is called
    on a prefix of the selection, in its order, and the HTTPS requests of
    the loop are exactly one per successful [Connect], each to
    [sessionInfo]'s web port with the local-proxy flag that the connected
    transport reports.  The result is [true] exactly when one of these
    requests returned [true]. *)
Theorem C9_candidate_loop_in_selection_order :
  forall s,
    let candidates := filter (eligible sessionInfo) (newAll W) in
    let out := failover s in
    exists lg' d,
      CandidateLoop candidates (selected (log s)) (response s)
        (fst out) lg' (response (snd out)) /\
      lg' = selected (log s) ++ d /\
      log (snd out) = lg' ++ map EvDelete candidates /\
      (exists k, map fst (connect_events d) = firstn k candidates) /\
      map fst (https_events d) =
        map (fun tr => via (fst tr))
            (filter connected_ok (connect_events d)) /\
      (fst out = Normal true <-> succeeded d = true).
Proof.
  intros s candidates out.
  destruct (transport_failover_runs s) as [lg' [Hrun [Hlog _]]].
  destruct (CandidateLoop_delta _ _ _ _ _ _ Hrun)
    as [_ [d [E [[_ _ _ Hk Hreq] Hs]]]].
  exists lg', d. repeat split; auto; apply Hs.
Qed.

(** ** Further properties of [MakeRequest] *)

Lemma https_events_deletes : forall ts, https_events (map EvDelete ts) = [].
Proof. induction ts as [|t ts IH]; simpl; [reflexivity | exact IH]. Qed.

Lemma connect_events_deletes : forall ts,
  connect_events (map EvDelete ts) = [].
Proof. induction ts as [|t ts IH]; simpl; [reflexivity | exact IH]. Qed.

Lemma deleted_deletes : forall ts, deleted (map EvDelete ts) = ts.
Proof. induction ts as [|t ts IH]; simpl; [reflexivity | rewrite IH; reflexivity]. Qed.

Lemma deleted_app : forall l1 l2, deleted (l1 ++ l2) = deleted l1 ++ deleted l2.
Proof.
  induction l1 as [|e l1 IH]; intros l2; simpl; [reflexivity|].
  destruct e; simpl; rewrite IH; reflexivity.
Qed.

Lemma enumerations_deletes : forall ts, enumerations (map EvDelete ts) = 0%nat.
Proof. induction ts as [|t ts IH]; simpl; [reflexivity | exact IH]. Qed.

Lemma enumerations_append : forall l1 l2,
  enumerations (l1 ++ l2) = (enumerations l1 + enumerations l2)%nat.
Proof.
  induction l1 as [|e l1 IH]; intros l2; simpl; [reflexivity|].
  destruct e; simpl; rewrite IH; reflexivity.
Qed.

(** A pass over the candidates deletes nothing and does not ask the
    registry. *)
Lemma loop_events_quiet : forall ts d,
  Forall (loop_event ts) d -> deleted d = [] /\ enumerations d = 0%nat.
Proof.
  induction d as [|e d IH]; intros H; simpl; [split; reflexivity|].
  inversion H as [|e' d' He Hd]; subst.
  destruct e; simpl in He; try contradiction; apply IH; assumption.
Qed.

(** The two lists of a selection together are the registry's list. *)
Lemma selection_partition : forall ts,
  Permutation
    (filter (ineligible sessionInfo) ts ++ filter (eligible sessionInfo) ts)
    ts.
Proof.
  induction ts as [|t ts IH]; simpl; [constructor|].
  unfold ineligible, eligible in *.
  destruct (IsHandshakeRequired t sessionInfo); simpl.
  - constructor. exact IH.
  - apply Permutation_sym, Permutation_cons_app, Permutation_sym. exact IH.
Qed.

(** How a run by the rules ends, for the events it added. *)
Lemma CandidateLoop_outcome :
  forall ts lg resp out lg' resp',
    CandidateLoop ts lg resp out lg' resp' ->
    forall d, lg' = lg ++ d -> LoopOutcome out resp' d.
Proof.
  intros ts lg resp out lg' resp' H.
  induction H as
    [ lg resp
    | t rest lg resp out lg' resp' Hc Hsub IH
    | t rest lg resp resp1 Hc Hh
    | t rest lg resp resp1 out lg' resp' Hc Hh Hsub IH
    | t rest lg resp out lg' resp' Hc Hh Hsub IH
    | t rest lg resp e He Hc
    | t rest lg resp e He Hc Hh ]; intros d E.
  - constructor; intros; discriminate.
  - destruct (CandidateLoop_delta _ _ _ _ _ _ Hsub) as [_ [d0 [E0 _]]].
    destruct (IH d0 E0) as [Hs Hn Ht].
    assert (Hd : d = [EvConnect t (ConnectThrow TryNextServer)] ++ d0).
    { apply (app_inv_head lg). rewrite <- E, E0, <- app_assoc. reflexivity. }
    subst d. constructor; [exact Hs | exact Hn |].
    intros e He. destruct (Ht e He) as [[c Hin]|[u Hin]];
      [left; exists c | right; exists u]; right; exact Hin.
  - apply app_inv_head in E. subst d. constructor.
    + intros _. exists [], (via t), resp1. repeat split; reflexivity.
    + discriminate.
    + intros e He. discriminate He.
  - destruct (CandidateLoop_delta _ _ _ _ _ _ Hsub) as [_ [d0 [E0 _]]].
    destruct (IH d0 E0) as [Hs Hn Ht].
    assert (Hd : d = [EvConnect t ConnectOk;
                      EvHTTPSRequest (via t) (HTTPSReturn false resp1);
                      EvPrint (TransportFailed (GetTransportProtocolName t));
                      EvDisconnect t] ++ d0).
    { apply (app_inv_head lg). rewrite <- E, E0, <- app_assoc. reflexivity. }
    subst d. constructor; [| exact Hn |].
    + intros Hout. destruct (Hs Hout) as [pre [c [r [H1 [H2 H3]]]]].
      exists ((via t, HTTPSReturn false resp1) :: pre), c, r.
      simpl. rewrite H1. repeat split; assumption.
    + intros e He. destruct (Ht e He) as [[c Hin]|[u Hin]];
        [left; exists c | right; exists u]; apply in_or_app; right; exact Hin.
  - destruct (CandidateLoop_delta _ _ _ _ _ _ Hsub) as [_ [d0 [E0 _]]].
    destruct (IH d0 E0) as [Hs Hn Ht].
    assert (Hd : d = [EvConnect t ConnectOk;
                      EvHTTPSRequest (via t) (HTTPSThrow TryNextServer);
                      EvDisconnect t] ++ d0).
    { apply (app_inv_head lg). rewrite <- E, E0, <- app_assoc. reflexivity. }
    subst d. constructor; [| exact Hn |].
    + intros Hout. destruct (Hs Hout) as [pre [c [r [H1 [H2 H3]]]]].
      exists ((via t, HTTPSThrow TryNextServer) :: pre), c, r.
      simpl. rewrite H1. repeat split; assumption.
    + intros e He. destruct (Ht e He) as [[c Hin]|[u Hin]];
        [left; exists c | right; exists u]; apply in_or_app; right; exact Hin.
  - apply app_inv_head in E. subst d. constructor.
    + intros Hout. discriminate Hout.
    + intros Hout. inversion Hout. contradiction.
    + intros e' He'. inversion He'; subst. right. exists t. left. reflexivity.
  - apply app_inv_head in E. subst d. constructor.
    + intros Hout. discriminate Hout.
    + intros Hout. inversion Hout. contradiction.
    + intros e' He'. inversion He'; subst. left. exists (via t).
      right. left. reflexivity.
Qed.

(** The fail-over through temporary transports from any state: what it
    adds to the log and how it ends. *)
Lemma transport_failover_facts :
  forall s,
    let candidates := filter (eligible sessionInfo) (newAll W) in
    exists d,
      log (snd (failover s)) =
        log s ++ EvNewAll (newAll W) ::
          map EvDelete (filter (ineligible sessionInfo) (newAll W)) ++
          d ++ map EvDelete candidates /\
      LoopDelta candidates d /\
      (fst (failover s) = Normal true <-> succeeded d = true) /\
      fst (failover s) <> AssertionFailed /\
      LoopOutcome (fst (failover s)) (response (snd (failover s))) d.
Proof.
  intros s candidates.
  destruct (transport_failover_runs s) as [lg' [Hrun [Hlog _]]].
  destruct (CandidateLoop_delta _ _ _ _ _ _ Hrun) as [Hna [d [E [D S]]]].
  exists d. split; [|split; [exact D | split; [exact S | split; [exact Hna|]]]].
  - rewrite Hlog, E. unfold selected. flatten_log. reflexivity.
  - exact (CandidateLoop_outcome _ _ _ _ _ _ Hrun d E).
Qed.

(** Case analysis on a call: the stop check, the assertion, the connected
    transport, the refusal of temporary connections, and the outcomes of
    the two direct attempts. *)
Lemma MakeRequest_cases :
  forall (P : Result bool * State -> Prop) adhocIfNeeded currentTransport
         response0,
    let p := GetWebPort sessionInfo in
    let started :=
      {| log := [EvCheckSignal false]; response := ""; connection := None |} in
    (stopSignalled W [] = true ->
     P (Thrown StopException,
        {| log := [EvCheckSignal true]; response := response0;
           connection := None |})) ->
    (stopSignalled W [] = false -> requestPath = None ->
     P (AssertionFailed,
        {| log := [EvCheckSignal false]; response := response0;
           connection := None |})) ->
    (forall t, currentTransport = Some t -> IsConnected t = true ->
       stopSignalled W [] = false -> requestPath <> None ->
       P (HTTPSRequest_MakeRequest W (via t) started)) ->
    (transportConnected currentTransport = false -> adhocIfNeeded = false ->
     stopSignalled W [] = false -> requestPath <> None ->
     P (Normal false, started)) ->
    (transportConnected currentTransport = false -> adhocIfNeeded = true ->
     stopSignalled W [] = false -> requestPath <> None ->
     forall e,
       httpsRequest W [EvCheckSignal false] (request p false) = HTTPSThrow e ->
       P (Thrown e,
          {| log := [EvCheckSignal false;
                     EvHTTPSRequest (request p false) (HTTPSThrow e)];
             response := ""; connection := None |})) ->
    (transportConnected currentTransport = false -> adhocIfNeeded = true ->
     stopSignalled W [] = false -> requestPath <> None ->
     forall resp1,
       httpsRequest W [EvCheckSignal false] (request p false)
         = HTTPSReturn true resp1 ->
       P (Normal true,
          {| log := [EvCheckSignal false;
                     EvHTTPSRequest (request p false) (HTTPSReturn true resp1)];
             response := resp1; connection := None |})) ->
    (transportConnected currentTransport = false -> adhocIfNeeded = true ->
     stopSignalled W [] = false -> requestPath <> None ->
     forall resp1 first,
       first = [EvCheckSignal false;
                EvHTTPSRequest (request p false) (HTTPSReturn false resp1);
                EvPrint (HttpsFailed p)] ->
       httpsRequest W [EvCheckSignal false] (request p false)
         = HTTPSReturn false resp1 ->
       (forall e,
          httpsRequest W first (request 443 false) = HTTPSThrow e ->
          P (Thrown e,
             {| log := first ++
                  [EvHTTPSRequest (request 443 false) (HTTPSThrow e)];
                response := resp1; connection := None |})) /\
       (forall resp2,
          httpsRequest W first (request 443 false) = HTTPSReturn true resp2 ->
          P (Normal true,
             {| log := first ++
                  [EvHTTPSRequest (request 443 false) (HTTPSReturn true resp2)];
                response := resp2; connection := None |})) /\
       (forall resp2,
          httpsRequest W first (request 443 false) = HTTPSReturn false resp2 ->
          P (failover
               {| log := first ++
                    [EvHTTPSRequest (request 443 false)
                       (HTTPSReturn false resp2);
                     EvPrint (HttpsFailed 443)];
                  response := resp2; connection := None |}))) ->
    P (run adhocIfNeeded currentTransport response0).
Proof.
  intros P a ct r0 p started Hstopped Hnull Hconn Hrefused Hthrow1 Htrue1 Hsecond.
  destruct (stopSignalled W []) eqn:Hstop.
  { rewrite MakeRequest_stopped by assumption. apply Hstopped. reflexivity. }
  assert (Hpath : requestPath <> None \/ requestPath = None)
    by (destruct requestPath; [left; discriminate | right; reflexivity]).
  destruct Hpath as [Hpath|Hpath].
  2:{ rewrite MakeRequest_null_path by assumption. apply Hnull; auto. }
  destruct (transportConnected ct) eqn:Hct.
  - rewrite MakeRequest_started by assumption. rewrite Hct.
    destruct ct as [t|]; [|discriminate Hct].
    apply (Hconn t); auto.
  - destruct a.
    + rewrite MakeRequest_adhoc_cases by assumption. cbv zeta. fold p.
      destruct (httpsRequest W [EvCheckSignal false] (request p false))
        as [[|] resp1|e] eqn:H1.
      * apply Htrue1; auto.
      * destruct (Hsecond eq_refl eq_refl eq_refl Hpath resp1 _ eq_refl
                    eq_refl) as [Ht [Hs Hf]].
        destruct (httpsRequest W _ (request 443 false)) as [[|] resp2|e] eqn:H2.
        -- apply Hs. reflexivity.
        -- apply Hf. reflexivity.
        -- apply Ht. reflexivity.
      * apply Hthrow1; auto.
    + rewrite MakeRequest_started by assumption. rewrite Hct. simpl.
      apply Hrefused; auto.
Qed.

(** The fail-over that follows two direct attempts that returned
    [false]: what the whole log holds. *)
Lemma failover_after_direct :
  forall resp1 resp2,
    let p := GetWebPort sessionInfo in
    let candidates := filter (eligible sessionInfo) (newAll W) in
    let disposed := filter (ineligible sessionInfo) (newAll W) in
    let out :=
      failover
        {| log := [EvCheckSignal false;
                   EvHTTPSRequest (request p false) (HTTPSReturn false resp1);
                   EvPrint (HttpsFailed p);
                   EvHTTPSRequest (request 443 false) (HTTPSReturn false resp2);
                   EvPrint (HttpsFailed 443)];
           response := resp2; connection := None |} in
    exists d,
      log (snd out) =
        [EvCheckSignal false;
         EvHTTPSRequest (request p false) (HTTPSReturn false resp1);
         EvPrint (HttpsFailed p);
         EvHTTPSRequest (request 443 false) (HTTPSReturn false resp2);
         EvPrint (HttpsFailed 443);
         EvNewAll (newAll W)] ++
        map EvDelete disposed ++ d ++ map EvDelete candidates /\
      https_events (log (snd out)) =
        (request p false, HTTPSReturn false resp1) ::
        (request 443 false, HTTPSReturn false resp2) :: https_events d /\
      connect_events (log (snd out)) = connect_events d /\
      deleted (log (snd out)) = disposed ++ candidates /\
      enumerations (log (snd out)) = 1%nat /\
      LoopDelta candidates d /\
      (fst out = Normal true <-> succeeded d = true) /\
      fst out <> AssertionFailed /\
      LoopOutcome (fst out) (response (snd out)) d.
Proof.
  intros resp1 resp2 p candidates disposed out.
  destruct (transport_failover_facts
              {| log := [EvCheckSignal false;
                   EvHTTPSRequest (request p false) (HTTPSReturn false resp1);
                   EvPrint (HttpsFailed p);
                   EvHTTPSRequest (request 443 false) (HTTPSReturn false resp2);
                   EvPrint (HttpsFailed 443)];
                 response := resp2; connection := None |})
    as [d [Hlog [D [S [Hna O]]]]].
  fold out candidates disposed in Hlog, D, S, Hna, O. simpl in Hlog.
  destruct (loop_events_quiet _ _ (delta_events _ _ D)) as [Hdel Henum].
  exists d. rewrite Hlog. simpl.
  rewrite !https_events_app, !connect_events_app, !deleted_app,
    !enumerations_append, !https_events_deletes, !connect_events_deletes,
    !deleted_deletes, !enumerations_deletes, Hdel, Henum, !app_nil_r.
  simpl. do 5 (split; [reflexivity|]).
  split; [exact D|]. split; [exact S|]. split; [exact Hna | exact O].
Qed.

Ltac by_cases :=
  match goal with
  | |- context [MakeRequest ?W ?si ?path ?hd ?dt ?len ?a ?ct (initial ?r0)] =>
      pattern (MakeRequest W si path hd dt len a ct (initial r0));
      apply MakeRequest_cases; cbv beta
  end.

(** X1.  A call returns [true] exactly when one of its HTTPS requests
    returned [true]; that request is then the last request of the call, no
    earlier request returned [true], and the caller's [response] is what
    that request left. *)
Theorem X1_true_exactly_on_the_last_request :
  forall adhocIfNeeded currentTransport response0,
    let out := run adhocIfNeeded currentTransport response0 in
    (fst out = Normal true <-> succeeded (log (snd out)) = true) /\
    (fst out = Normal true ->
     exists pre c resp,
       https_events (log (snd out)) = pre ++ [(c, HTTPSReturn true resp)] /\
       existsb request_succeeded pre = false /\
       response (snd out) = resp).
Proof.
  intros a ct r0. cbv zeta. by_cases.
  - intros _. simpl. split; [split|]; discriminate.
  - intros _ _. simpl. split; [split|]; discriminate.
  - intros t _ _ _ _. unfold HTTPSRequest_MakeRequest. simpl.
    destruct (httpsRequest W [EvCheckSignal false] (via t)) as [[|] resp|e];
      simpl; (split; [split|]); try discriminate; try reflexivity.
    intros _. exists [], (via t), resp. repeat split; reflexivity.
  - intros _ _ _ _. simpl. split; [split|]; discriminate.
  - intros _ _ _ _ e _. simpl. split; [split|]; discriminate.
  - intros _ _ _ _ resp1 _. simpl. split; [split; reflexivity|].
    intros _. eexists [], _, resp1. repeat split; reflexivity.
  - intros _ _ _ _ resp1 first Hfirst _. subst first. simpl app.
    split; [|split].
    + intros e _. simpl. split; [split|]; discriminate.
    + intros resp2 _. simpl. split; [split; reflexivity|].
      intros _. eexists [_], _, resp2. repeat split; reflexivity.
    + intros resp2 _.
      destruct (failover_after_direct resp1 resp2)
        as [d [_ [Hh [_ [_ [_ [_ [S [_ O]]]]]]]]].
      cbv zeta in Hh, S, O. unfold succeeded. rewrite Hh. simpl. split.
      * exact S.
      * intros Hout.
        destruct (outcome_success _ _ _ O Hout) as [pre [c [r [H1 [H2 H3]]]]].
        eexists (_ :: _ :: pre), c, r. rewrite H1. simpl.
        repeat split; assumption.
Qed.


(** X3.  The transports the registry creates are deleted exactly once each
    by the time the call is left, however it is left: a call that asked the
    registry asked it once and deleted first the transports that need a
    handshake, then the eligible ones, together a permutation of what the
    registry created.  A call that did not ask the registry deletes
    nothing. *)
Theorem X3_created_transports_deleted_once :
  forall adhocIfNeeded currentTransport response0,
    let lg := log (snd (run adhocIfNeeded currentTransport response0)) in
    (enumerations lg = 0%nat /\ deleted lg = []) \/
    (enumerations lg = 1%nat /\
     deleted lg = filter (ineligible sessionInfo) (newAll W) ++
                  filter (eligible sessionInfo) (newAll W) /\
     Permutation (deleted lg) (newAll W)).
Proof.
  intros a ct r0. cbv zeta. by_cases.
  - intros _. left. split; reflexivity.
  - intros _ _. left. split; reflexivity.
  - intros t _ _ _ _. unfold HTTPSRequest_MakeRequest. simpl.
    destruct (httpsRequest W [EvCheckSignal false] (via t)); simpl;
      left; split; reflexivity.
  - intros _ _ _ _. left. split; reflexivity.
  - intros _ _ _ _ e _. left. split; reflexivity.
  - intros _ _ _ _ resp1 _. left. split; reflexivity.
  - intros _ _ _ _ resp1 first Hfirst _. subst first. simpl app.
    split; [|split].
    + intros e _. left. split; reflexivity.
    + intros resp2 _. left. split; reflexivity.
    + intros resp2 _. right.
      destruct (failover_after_direct resp1 resp2)
        as [d [_ [_ [_ [Hdel [Hen _]]]]]].
      cbv zeta in Hdel, Hen. rewrite Hdel, Hen.
      split; [reflexivity|]. split; [reflexivity|].
      apply selection_partition.
Qed.

Ltac no_such_event :=
  let H := fresh "H" in
  simpl; intros H;
  repeat (destruct H as [H|H]; try discriminate H);
  contradiction.

(** X4.  The registry is asked for transports only in a call that has no
    connected transport and may connect temporarily, and only after the
    two direct requests, to the web port and to port 443, both returned
    [false]; what it is asked for is its full list. *)
Theorem X4_registry_asked_only_after_direct_failures :
  forall adhocIfNeeded currentTransport response0 ts,
    In (EvNewAll ts)
       (log (snd (run adhocIfNeeded currentTransport response0))) ->
    ts = newAll W /\
    transportConnected currentTransport = false /\
    adhocIfNeeded = true /\
    exists resp1 resp2,
      direct_attempts
        (log (snd (run adhocIfNeeded currentTransport response0))) =
      [(request (GetWebPort sessionInfo) false, HTTPSReturn false resp1);
       (request 443 false, HTTPSReturn false resp2)].
Proof.
  intros a ct r0 ts. by_cases.
  - intros _. no_such_event.
  - intros _ _. no_such_event.
  - intros t _ _ _ _. unfold HTTPSRequest_MakeRequest. simpl.
    destruct (httpsRequest W [EvCheckSignal false] (via t)); no_such_event.
  - intros _ _ _ _. no_such_event.
  - intros _ _ _ _ e _. no_such_event.
  - intros _ _ _ _ resp1 _. no_such_event.
  - intros Hct Ha _ _ resp1 first Hfirst _. subst first. simpl app.
    split; [|split].
    + intros e _. no_such_event.
    + intros resp2 _. no_such_event.
    + intros resp2 _.
      destruct (failover_after_direct resp1 resp2)
        as [d [Hlog [_ [_ [_ [_ [[Hev _ _ _ _] _]]]]]]].
      cbv zeta in Hlog. rewrite Hlog. intros Hin.
      split; [|split; [exact Hct | split; [exact Ha|]]].
      * simpl in Hin.
        repeat (destruct Hin as [Hin|Hin]; try discriminate Hin).
        { inversion Hin. reflexivity. }
        apply in_app_or in Hin. destruct Hin as [Hin|Hin].
        { apply in_map_iff in Hin. destruct Hin as [x [Hx _]]. discriminate Hx. }
        apply in_app_or in Hin. destruct Hin as [Hin|Hin].
        { rewrite Forall_forall in Hev. apply Hev in Hin. contradiction. }
        apply in_map_iff in Hin. destruct Hin as [x [Hx _]]. discriminate Hx.
      * exists resp1, resp2. reflexivity.
Qed.

(** X5.  The fail-over through temporary transports never ends with the
    [TryNextServer] exception, from whatever state it starts and whichever
    collaborator throws it, and it never fails an assertion. *)
Theorem X5_TryNextServer_never_leaves_the_failover :
  forall s,
    fst (transport_failover W sessionInfo requestPath additionalHeaders
            additionalData additionalDataLength s) <> Thrown TryNextServer /\
    fst (transport_failover W sessionInfo requestPath additionalHeaders
            additionalData additionalDataLength s) <> AssertionFailed.
Proof.
  intros s.
  destruct (transport_failover_facts s) as [d [_ [_ [_ [Hna O]]]]].
  split; [exact (outcome_not_caught _ _ _ O) | exact Hna].
Qed.

(** X6.  [MakeRequest] raises no exception of its own: an exception that
    leaves a call is the stop exception of a stop check that found the
    signal up, or was thrown by an HTTPS request or by a [Connect] of this
    call. *)
Theorem X6_exceptions_come_from_collaborators :
  forall adhocIfNeeded currentTransport response0 e,
    fst (MakeRequest W sessionInfo requestPath additionalHeaders additionalData
            additionalDataLength adhocIfNeeded currentTransport
            (initial response0)) = Thrown e ->
    (e = StopException /\ stopSignalled W [] = true) \/
    (exists c,
       In (EvHTTPSRequest c (HTTPSThrow e))
          (log (snd (MakeRequest W sessionInfo requestPath additionalHeaders additionalData
            additionalDataLength adhocIfNeeded currentTransport
            (initial response0))))) \/
    (exists t,
       In (EvConnect t (ConnectThrow e))
          (log (snd (MakeRequest W sessionInfo requestPath additionalHeaders additionalData
            additionalDataLength adhocIfNeeded currentTransport
            (initial response0))))).
Proof.
  intros a ct r0 e. by_cases.
  - intros Hstop H. inversion H. left. split; [reflexivity | exact Hstop].
  - intros _ _ H. discriminate H.
  - intros t _ _ _ _. unfold HTTPSRequest_MakeRequest. simpl.
    destruct (httpsRequest W [EvCheckSignal false] (via t)) as [ok resp|e'];
      simpl; intros H; [discriminate H|].
    inversion H; subst. right. left. exists (via t). simpl. auto.
  - intros _ _ _ _ H. discriminate H.
  - intros _ _ _ _ e' _ H. inversion H; subst. right. left.
    eexists. simpl. right. left. reflexivity.
  - intros _ _ _ _ resp1 _ H. discriminate H.
  - intros _ _ _ _ resp1 first Hfirst _. subst first. simpl app.
    split; [|split].
    + intros e' _ H. inversion H; subst. right. left.
      eexists. simpl. do 3 right. left. reflexivity.
    + intros resp2 _ H. discriminate H.
    + intros resp2 _ H.
      destruct (failover_after_direct resp1 resp2)
        as [d [Hlog [_ [_ [_ [_ [_ [_ [_ O]]]]]]]]].
      cbv zeta in Hlog, O. rewrite Hlog. right.
      destruct (outcome_thrown _ _ _ O e H) as [[c Hin]|[t Hin]];
        [left; exists c | right; exists t];
        apply in_or_app; right; apply in_or_app; right;
        apply in_or_app; left; exact Hin.
Qed.

Lemma to_session_web_port : forall proxy,
  to_session (request (GetWebPort sessionInfo) proxy).
Proof. intros proxy. unfold to_session. simpl. auto 10. Qed.

Lemma to_session_443 : to_session (request 443 false).
Proof. unfold to_session. simpl. auto 10. Qed.

Ltac session_requests :=
  simpl;
  repeat (apply Forall_cons;
          [first [apply to_session_web_port | apply to_session_443]|]);
  apply Forall_nil.

(** X7.  Every HTTPS request of a call goes to the session's server
    address with the session's certificate and carries the caller's path,
    headers and data unchanged; its port is the session's web port, or it
    is a request to port 443 made without the local proxy. *)
Theorem X7_requests_go_to_the_session_server :
  forall adhocIfNeeded currentTransport response0,
    Forall (fun cr => to_session (fst cr))
      (https_events (log (snd (run adhocIfNeeded currentTransport response0)))).
Proof.
  intros a ct r0. by_cases.
  - intros _. session_requests.
  - intros _ _. session_requests.
  - intros t _ _ _ _. unfold HTTPSRequest_MakeRequest. simpl.
    destruct (httpsRequest W [EvCheckSignal false] (via t));
      session_requests.
  - intros _ _ _ _. session_requests.
  - intros _ _ _ _ e _. session_requests.
  - intros _ _ _ _ resp1 _. session_requests.
  - intros _ _ _ _ resp1 first Hfirst _. subst first. simpl app.
    split; [|split].
    + intros e _. session_requests.
    + intros resp2 _. session_requests.
    + intros resp2 _.
      destruct (failover_after_direct resp1 resp2)
        as [d [_ [Hh [_ [_ [_ [[_ _ _ _ Hreq] _]]]]]]].
      cbv zeta in Hh. rewrite Hh.
      apply Forall_cons; [apply to_session_web_port|].
      apply Forall_cons; [apply to_session_443|].
      apply Forall_map with (f := fst) (P := to_session).
      rewrite Hreq. apply Forall_map. apply Forall_forall.
      intros tr _. apply to_session_web_port.
Qed.

Lemma nothing_eligible : forall ts,
  filter (eligible sessionInfo) ts = [] ->
  filter (ineligible sessionInfo) ts = ts.
Proof.
  induction ts as [|t ts IH]; simpl; [reflexivity|].
  unfold eligible, ineligible in *.
  destruct (IsHandshakeRequired t sessionInfo); simpl.
  - intros H. rewrite IH by exact H. reflexivity.
  - discriminate.
Qed.

(** A pass over no candidate returns [false] and adds nothing. *)
Lemma CandidateLoop_nil :
  forall lg resp out lg' resp',
    CandidateLoop [] lg resp out lg' resp' ->
    out = Normal false /\ lg' = lg.
Proof.
  intros lg resp out lg' resp' H. inversion H; subst. split; reflexivity.
Qed.

(** X8.  When no transport of the registry is eligible (all need a
    handshake, or the registry is empty), no call connects anything; a call
    that reaches the registry returns [false] and has deleted every
    transport the registry created, in the registry's order. *)
Theorem X8_nothing_eligible_nothing_connected :
  forall adhocIfNeeded currentTransport response0,
    filter (eligible sessionInfo) (newAll W) = [] ->
    let out := run adhocIfNeeded currentTransport response0 in
    connect_events (log (snd out)) = [] /\
    (forall ts, In (EvNewAll ts) (log (snd out)) ->
       fst out = Normal false /\ deleted (log (snd out)) = newAll W).
Proof.
  intros a ct r0 Hnone. cbv zeta. by_cases.
  - intros _. split; [reflexivity | intros ts; no_such_event].
  - intros _ _. split; [reflexivity | intros ts; no_such_event].
  - intros t _ _ _ _. unfold HTTPSRequest_MakeRequest. simpl.
    destruct (httpsRequest W [EvCheckSignal false] (via t)); simpl;
      (split; [reflexivity | intros ts; no_such_event]).
  - intros _ _ _ _. split; [reflexivity | intros ts; no_such_event].
  - intros _ _ _ _ e _. split; [reflexivity | intros ts; no_such_event].
  - intros _ _ _ _ resp1 _. split; [reflexivity | intros ts; no_such_event].
  - intros _ _ _ _ resp1 first Hfirst _. subst first. simpl app.
    split; [|split].
    + intros e _. split; [reflexivity | intros ts; no_such_event].
    + intros resp2 _. split; [reflexivity | intros ts; no_such_event].
    + intros resp2 _.
      match goal with
      | |- context [transport_failover _ _ _ _ _ _ ?st] =>
          destruct (transport_failover_runs st) as [lg' [Hrun [Hlog _]]]
      end.
      cbv zeta in Hrun. rewrite Hnone in Hrun, Hlog.
      destruct (CandidateLoop_nil _ _ _ _ _ Hrun) as [Hout Hlg]. subst lg'.
      rewrite Hlog, Hout. unfold selected.
      rewrite (nothing_eligible _ Hnone). simpl.
      rewrite !connect_events_app, !deleted_app, connect_events_deletes,
        deleted_deletes. simpl.
      split; [reflexivity|]. intros ts _. split; [reflexivity|].
      apply app_nil_r.
Qed.

(** X9.  A call fails its assertion exactly when the stop signal is down
    at the start and the path is null: with a path, no call ends on a
    failed assertion. *)
Theorem X9_assertion_fails_only_on_a_null_path :
  forall adhocIfNeeded currentTransport response0,
    fst (MakeRequest W sessionInfo requestPath additionalHeaders additionalData
            additionalDataLength adhocIfNeeded currentTransport
            (initial response0)) = AssertionFailed <->
    (stopSignalled W [] = false /\ requestPath = None).
Proof.
  intros a ct r0. by_cases.
  - intros Hstop. simpl. split; [discriminate | intros [H _]; congruence].
  - intros Hstop Hpath. simpl. split; auto.
  - intros t _ _ _ Hpath. unfold HTTPSRequest_MakeRequest. simpl.
    destruct (httpsRequest W [EvCheckSignal false] (via t)); simpl;
      (split; [discriminate | intros [_ H]; contradiction]).
  - intros _ _ _ Hpath. simpl.
    split; [discriminate | intros [_ H]; contradiction].
  - intros _ _ _ Hpath e _. simpl.
    split; [discriminate | intros [_ H]; contradiction].
  - intros _ _ _ Hpath resp1 _. simpl.
    split; [discriminate | intros [_ H]; contradiction].
  - intros _ _ _ Hpath resp1 first Hfirst _. subst first. simpl app.
    split; [|split].
    + intros e _. simpl. split; [discriminate | intros [_ H]; contradiction].
    + intros resp2 _. simpl.
      split; [discriminate | intros [_ H]; contradiction].
    + intros resp2 _.
      destruct (failover_after_direct resp1 resp2)
        as [d [_ [_ [_ [_ [_ [_ [_ [Hna _]]]]]]]]].
      cbv zeta in Hna.
      split; [intros H; contradiction | intros [_ H]; contradiction].
Qed.

End Properties.

(** ** Examples, witnesses and counterexamples *)

(** A connected transport, web port 8080: one request, through the proxy. *)
Example connected_call :
  MakeRequest reachable session8080 (Some "/status") None None 0
    false (Some tunnel_up) (initial "stale") =
  (Normal true,
   {| log :=
        [EvCheckSignal false;
         EvHTTPSRequest
           (request_to session8080 (Some "/status") None None 0 8080 true)
           (HTTPSReturn true "OK")];
      response := "OK"; connection := None |}).
Proof. reflexivity. Qed.

(** Direct attempts fail, [vpn] needs a handshake, [ssh] fails, [ossh]
    succeeds. *)
Example failover_call :
  let via t := request_to session8080 (Some "/status") None None 0 8080
                 (IsServerRequestTunnelled t) in
  let to p := request_to session8080 (Some "/status") None None 0 p false in
  MakeRequest tunnelled_only session8080 (Some "/status") None None 0
    true None (initial "") =
  (Normal true,
   {| log :=
        [EvCheckSignal false;
         EvHTTPSRequest (to 8080) (HTTPSReturn false "");
         EvPrint (HttpsFailed 8080);
         EvHTTPSRequest (to 443) (HTTPSReturn false "");
         EvPrint (HttpsFailed 443);
         EvNewAll [vpn; ssh; ossh];
         EvDelete vpn;
         EvConnect ssh ConnectOk;
         EvHTTPSRequest (via ssh) (HTTPSReturn false "");
         EvPrint (TransportFailed "SSH");
         EvDisconnect ssh;
         EvConnect ossh ConnectOk;
         EvHTTPSRequest (via ossh) (HTTPSReturn true "X");
         EvDisconnect ossh;
         EvDelete ssh;
         EvDelete ossh];
      response := "X"; connection := None |}).
Proof. reflexivity. Qed.

(** The stop signal is up when the call starts: nothing but the stop check
    happens, and the caller's [response] is not even cleared. *)
Example stopped_call :
  MakeRequest stopped session8080 (Some "/status") None None 0
    true (Some tunnel_up) (initial "stale") =
  (Thrown StopException,
   {| log := [EvCheckSignal true]; response := "stale";
      connection := None |}).
Proof. reflexivity. Qed.

(** The selection on the registry [[vpn; ssh; ossh]]: [vpn] is deleted, the
    other two are returned in order. *)
Example selection_call :
  GetTempTransports reachable session8080 (initial "") =
  (Normal [ssh; ossh],
   {| log := [EvNewAll [vpn; ssh; ossh]; EvDelete vpn];
      response := ""; connection := None |}).
Proof. reflexivity. Qed.

(** A request through a temporary transport that throws the stop
    exception: [ssh] is disconnected and both selected transports are
    deleted before the exception leaves the call. *)
Example stopped_in_transport_call :
  let via t := request_to session8080 (Some "/status") None None 0 8080
                 (IsServerRequestTunnelled t) in
  let to p := request_to session8080 (Some "/status") None None 0 p false in
  MakeRequest stop_seen_by_tunnelled_request session8080 (Some "/status")
    None None 0 true None (initial "") =
  (Thrown StopException,
   {| log :=
        [EvCheckSignal false;
         EvHTTPSRequest (to 8080) (HTTPSReturn false "");
         EvPrint (HttpsFailed 8080);
         EvHTTPSRequest (to 443) (HTTPSReturn false "");
         EvPrint (HttpsFailed 443);
         EvNewAll [vpn; ssh; ossh];
         EvDelete vpn;
         EvConnect ssh ConnectOk;
         EvHTTPSRequest (via ssh) (HTTPSThrow StopException);
         EvDisconnect ssh;
         EvDelete ssh;
         EvDelete ossh];
      response := ""; connection := None |}).
Proof. reflexivity. Qed.

(** C1 at a connected transport. *)
Lemma C1_witness :
  IsConnected tunnel_up = true /\
  https_events
    (log (snd (MakeRequest reachable session8080 (Some "/status") None None 0
                 false (Some tunnel_up) (initial "")))) =
  [(request_to session8080 (Some "/status") None None 0 8080 true,
    HTTPSReturn true "OK")].
Proof.
  split; [reflexivity|].
  exact (proj1 (proj2 (proj2
    (C1_connected_transport_single_request reachable session8080
       (Some "/status") None None 0 false tunnel_up ""
       eq_refl eq_refl ltac:(discriminate))))).
Defined.

(** C6 with no transport at all. *)
Lemma C6_witness :
  transportConnected None = false /\
  https_events
    (log (snd (MakeRequest reachable session8080 (Some "/status") None None 0
                 false None (initial "")))) = [] /\
  fst (MakeRequest reachable session8080 (Some "/status") None None 0
         false None (initial "")) = Normal false.
Proof.
  split; [reflexivity|].
  pose proof (C6_no_transport_no_adhoc reachable session8080
                (Some "/status") None None 0 None "" eq_refl) as H.
  cbv zeta in H. destruct H as [H1 [_ [_ H4]]].
  split; [exact H1|].
  exact (proj1 (H4 eq_refl ltac:(discriminate))).
Defined.

(** C7 (as stated) fails on an empty path that is not null: the request is
    made and the call returns its result. *)
Lemma C7_counterexample :
  let out := MakeRequest reachable session8080 (Some "") None None 0
               false (Some tunnel_up) (initial "") in
  fst out = Normal true /\
  https_events (log (snd out)) =
  [(request_to session8080 (Some "") None None 0 8080 true,
    HTTPSReturn true "OK")].
Proof. split; reflexivity. Qed.

(** C7 (as amended) at a null path. *)
Lemma C7_witness :
  fst (MakeRequest reachable session8080 None None None 0
         true None (initial "")) = AssertionFailed.
Proof.
  pose proof (C7_null_path_asserts_before_io reachable session8080
                None None None 0 true None "" eq_refl) as H.
  cbv zeta in H. destruct H as [_ [_ [_ H4]]].
  exact (proj1 (H4 eq_refl)).
Defined.

(** C2 (as stated) fails at web port 443: the design's list has one port,
    the call tries port 443 twice. *)
Lemma C2_counterexample :
  let out := MakeRequest unreachable session443 (Some "/status") None None 0
               true None (initial "") in
  spec_direct_ports (GetWebPort session443) = [443] /\
  direct_ports (log (snd out)) = [443; 443] /\
  direct_ports (log (snd out)) <> spec_direct_ports (GetWebPort session443).
Proof. repeat split; try reflexivity. discriminate. Qed.

(** C2 (as amended) at web port 443. *)
Lemma C2_witness :
  direct_ports
    (log (snd (MakeRequest unreachable session443 (Some "/status") None None 0
                 true None (initial "")))) = [443; 443].
Proof.
  exact (C2_direct_ports_in_order_without_skipping unreachable session443
           (Some "/status") None None 0 None ""
           eq_refl eq_refl ltac:(discriminate)).
Defined.

(** C3 (as stated) fails when the signal comes up after the first direct
    attempt: the call does not poll again, tries port 443, connects the
    eligible transports and returns [false]. *)
Lemma C3_counterexample :
  let out := MakeRequest stopped_after_first_request session8080
               (Some "/status") None None 0 true None (initial "") in
  let first :=
    EvHTTPSRequest
      (request_to session8080 (Some "/status") None None 0 8080 false)
      (HTTPSReturn false "") in
  stopSignalled stopped_after_first_request [] = false /\
  stopSignalled stopped_after_first_request [EvCheckSignal false; first]
    = true /\
  firstn 2 (log (snd out)) = [EvCheckSignal false; first] /\
  fst out = Normal false /\
  direct_ports (log (snd out)) = [8080; 443] /\
  connect_events (log (snd out)) = [(ssh, ConnectOk); (ossh, ConnectOk)] /\
  polls (log (snd out)) = 1%nat.
Proof. repeat split; reflexivity. Qed.

(** C8 when only port 443 answers. *)
Lemma C8_witness :
  MakeRequest only443 session8080 (Some "/status") None None 0
    true (Some tunnel_down) (initial "") =
  (Normal true,
   {| log :=
        [EvCheckSignal false;
         EvHTTPSRequest
           (request_to session8080 (Some "/status") None None 0 8080 false)
           (HTTPSReturn false "");
         EvPrint (HttpsFailed 8080);
         EvHTTPSRequest
           (request_to session8080 (Some "/status") None None 0 443 false)
           (HTTPSReturn true "R")];
      response := "R"; connection := None |}).
Proof.
  pose proof (C8_direct_attempts_in_order_without_proxy only443 session8080
                (Some "/status") None None 0 (Some tunnel_down) ""
                eq_refl eq_refl ltac:(discriminate)) as H.
  cbv zeta in H. destruct H as [_ [_ [_ [H _]]]].
  exact (H "" "R" eq_refl eq_refl).
Defined.

(** C10 at a transport that is down. *)
Lemma C10_witness :
  MakeRequest tunnelled_only session8080 (Some "/status") None None 0
    true (Some tunnel_down) (initial "") =
  MakeRequest tunnelled_only session8080 (Some "/status") None None 0
    true None (initial "").
Proof.
  exact (proj1 (C10_disconnected_transport_as_absent tunnelled_only
                  session8080 (Some "/status") None None 0 true tunnel_down ""
                  eq_refl)).
Defined.

(** X4 at a call that fails over. *)
Lemma X4_witness :
  exists resp1 resp2,
    direct_attempts
      (log (snd (MakeRequest tunnelled_only session8080 (Some "/status")
                   None None 0 true None (initial "")))) =
    [(request_to session8080 (Some "/status") None None 0 8080 false,
      HTTPSReturn false resp1);
     (request_to session8080 (Some "/status") None None 0 443 false,
      HTTPSReturn false resp2)].
Proof.
  refine (proj2 (proj2 (proj2
    (X4_registry_asked_only_after_direct_failures tunnelled_only session8080
       (Some "/status") None None 0 true None "" [vpn; ssh; ossh] _)))).
  simpl. do 5 right. left. reflexivity.
Defined.

(** X6 at a call whose request through a transport throws. *)
Lemma X6_witness :
  let lg := log (snd (MakeRequest stop_seen_by_tunnelled_request session8080
                        (Some "/status") None None 0 true None (initial ""))) in
  (StopException = StopException /\
   stopSignalled stop_seen_by_tunnelled_request [] = true) \/
  (exists c, In (EvHTTPSRequest c (HTTPSThrow StopException)) lg) \/
  (exists t, In (EvConnect t (ConnectThrow StopException)) lg).
Proof.
  exact (X6_exceptions_come_from_collaborators stop_seen_by_tunnelled_request
           session8080 (Some "/status") None None 0 true None ""
           StopException eq_refl).
Defined.

(** X8 at a registry with nothing eligible. *)
Lemma X8_witness :
  filter (eligible session8080) (newAll handshake_only) = [] /\
  connect_events
    (log (snd (MakeRequest handshake_only session8080 (Some "/status")
                 None None 0 true None (initial "")))) = [].
Proof.
  split; [reflexivity|].
  exact (proj1 (X8_nothing_eligible_nothing_connected handshake_only
                  session8080 (Some "/status") None None 0 true None ""
                  eq_refl)).
Defined.
